(** * Connectify backend: presence, conversation addressing and message routing

    A shallow embedding of the realtime core of the server (the socket.io
    handlers of the server entry point and the chat history route), with the
    properties of its specification stated and settled against it. *)

From Stdlib Require Import ZArith String Ascii List Bool Lia.
From stdpp Require Import base decidable option list sorting gmap strings.

Local Open Scope string_scope.
Local Open Scope Z_scope.
Local Open Scope list_scope.

(** ** JavaScript values used by the handlers *)

Module Js.

(** Truthiness of a string: only the empty string is falsy. *)
Definition truthy_string (s : string) : bool :=
  match s with
  | EmptyString => false
  | String _ _ => true
  end.

(** Truthiness of a field that may be missing ([None] is [undefined]). *)
Definition truthy (v : option string) : bool :=
  match v with
  | Some s => truthy_string s
  | None => false
  end.

(** [Array.prototype.sort] without a comparator, on an array of strings:
    ascending by code unit; an insertion sort, equal elements keep their
    order. *)
Fixpoint sort_insert (x : string) (l : list string) : list string :=
  match l with
  | [] => [x]
  | y :: l' => if String.ltb y x || String.eqb y x then y :: sort_insert x l'
               else x :: l
  end.

Fixpoint sort (l : list string) : list string :=
  match l with
  | [] => []
  | x :: l' => sort_insert x (sort l')
  end.

(** [Array.prototype.join]. *)
Definition join (sep : string) (l : list string) : string :=
  String.concat sep l.

End Js.

(** ** Conversation addressing *)

(** [const getConversationId = (userId1, userId2) =>
      [userId1, userId2].sort().join('-')] *)
Definition getConversationId (userId1 userId2 : string) : string :=
  Js.join "-" (Js.sort [userId1; userId2]).

(** The separator does not occur in the string. *)
Fixpoint no_separator (s : string) : bool :=
  match s with
  | EmptyString => true
  | String c s' => negb (Ascii.eqb c "-") && no_separator s'
  end.

(** ** The [Map] holding the online users

    A JavaScript [Map] keeps its keys in insertion order, and
    [Array.from(map.keys())] is sent to the clients, so the map is an
    association list in insertion order. *)

Module JsMap.

Definition t : Type := list (string * string).

Definition empty : t := [].

(** [map.get(k)] *)
Fixpoint get (k : string) (m : t) : option string :=
  match m with
  | [] => None
  | (k', v) :: m' => if String.eqb k' k then Some v else get k m'
  end.

(** [map.set(k, v)]: an existing key keeps its position. *)
Fixpoint set (k v : string) (m : t) : t :=
  match m with
  | [] => [(k, v)]
  | (k', v') :: m' =>
      if String.eqb k' k then (k, v) :: m' else (k', v') :: set k v m'
  end.

(** [map.delete(k)] *)
Fixpoint delete (k : string) (m : t) : t :=
  match m with
  | [] => []
  | (k', v') :: m' =>
      if String.eqb k' k then delete k m' else (k', v') :: delete k m'
  end.

(** [Array.from(map.keys())] *)
Definition keys (m : t) : list string := map fst m.

End JsMap.

(** ** Messages *)

(** The payload of a [sendMessage] event, as the client sends it; a field the
    client left out is [None]. *)
Record MessageData := {
  senderId : option string;
  receiverId : option string;
  conversationId : option string;
  body : string;
  timestamp : option Z
}.

(** [messageData.conversationId = conversationId] *)
Definition set_conversationId (d : MessageData) (c : string) : MessageData :=
  {| senderId := senderId d; receiverId := receiverId d;
     conversationId := Some c; body := body d; timestamp := timestamp d |}.

(** Modelled from the spec: the Message schema (models/Message.js is not among
    the sources). A message has a sender, a receiver, a conversation id, a
    body and a timestamp, the timestamp being assigned when absent. The
    identity the persistence layer adds plays no part in the handlers and is
    left out. *)
Record Message := {
  msg_senderId : option string;
  msg_receiverId : option string;
  msg_conversationId : option string;
  msg_body : string;
  msg_timestamp : Z
}.

#[global] Instance Message_eq_dec : EqDecision Message.
Proof. solve_decision. Defined.

(** [new Message(messageData)], built at time [now]. *)
Definition new_Message (d : MessageData) (now : Z) : Message :=
  {| msg_senderId := senderId d;
     msg_receiverId := receiverId d;
     msg_conversationId := conversationId d;
     msg_body := body d;
     msg_timestamp := default now (timestamp d) |}.

(** ** Queries on the message collection *)

Module Query.

(** [Message.find(filter)] *)
Definition find (filter : Message → bool) (coll : list Message) : list Message :=
  List.filter filter coll.

(** The filter [{ conversationId }] *)
Definition by_conversationId (c : string) (m : Message) : bool :=
  bool_decide (msg_conversationId m = Some c).

(** The empty filter of [Message.find()] *)
Definition all (m : Message) : bool := true.

(** The order of [.sort({ timestamp: dir })]: [1] ascending, [-1] descending. *)
Definition timestamp_order (dir : Z) (m1 m2 : Message) : Prop :=
  dir * msg_timestamp m1 ≤ dir * msg_timestamp m2.

#[global] Instance timestamp_order_dec dir : RelDecision (timestamp_order dir).
Proof. intros m1 m2. unfold timestamp_order. apply _. Defined.

(** [.sort({ timestamp: dir })]. The order among messages of equal timestamp
    is the database's to choose; nothing below depends on it. *)
Definition sort (dir : Z) (l : list Message) : list Message :=
  merge_sort (timestamp_order dir) l.

(** [.limit(n)] *)
Definition limit (n : nat) (l : list Message) : list Message := take n l.

End Query.

(** ** Exceptions *)

Inductive Result (A : Type) : Type :=
| Ok (a : A)
| Throw (error : string).
Arguments Ok {A} a.
Arguments Throw {A} error.

(** [try { body } catch (error) { handler }] *)
Definition try_catch {A : Type} (body : Result A) (handler : string → A) : A :=
  match body with
  | Ok a => a
  | Throw error => handler error
  end.

(** ** The server *)

(** What the server sends to clients. *)
Inductive ServerEvent : Type :=
| EvOnlineUsers (users : list string)
| EvMessage (message : Message)
| EvMessageError (error : string)
| EvPreviousMessages (conversation : string) (found : list Message)
| EvFetchError (error : string).

(** The three ways the handlers emit: [io.emit], [io.to(room).emit] and
    [socket.emit]. *)
Inductive Emit : Type :=
| io_emit (ev : ServerEvent)
| io_to (room : string) (ev : ServerEvent)
| socket_emit (socket : string) (ev : ServerEvent).

(** A connected socket: the [userId] property the [join] handler sets on it
    and the rooms it is in. The socket's id is its key in [sockets]. *)
Record Socket := {
  userId : option string;
  rooms : gset string
}.

Record Server := {
  onlineUsers : JsMap.t;
  sockets : gmap string Socket;
  messages : list Message
}.

Definition with_onlineUsers (srv : Server) (m : JsMap.t) : Server :=
  {| onlineUsers := m; sockets := sockets srv; messages := messages srv |}.

Definition with_sockets (srv : Server) (ss : gmap string Socket) : Server :=
  {| onlineUsers := onlineUsers srv; sockets := ss; messages := messages srv |}.

Definition with_messages (srv : Server) (ms : list Message) : Server :=
  {| onlineUsers := onlineUsers srv; sockets := sockets srv; messages := ms |}.

(** The server as it starts: nobody online, nothing stored. *)
Definition initial : Server :=
  {| onlineUsers := JsMap.empty; sockets := ∅; messages := [] |}.

(** [message.save()]: the document is appended to the collection, or the
    write fails and the call throws. Whether the write succeeds is the
    database's choice, [save_ok]. *)
Definition save (message : Message) (save_ok : bool) (srv : Server) : Result Server :=
  if save_ok then Ok (with_messages srv (messages srv ++ [message]))
  else Throw "save failed".

(** A read of the collection, which may fail likewise. *)
Definition read (find_ok : bool) (srv : Server) : Result (list Message) :=
  if find_ok then Ok (messages srv) else Throw "find failed".

(** A required field: present and truthy, the opposite of what [if (!x)]
    rejects. *)
Definition required (v : option string) : option string :=
  match v with
  | Some s => if Js.truthy_string s then Some s else None
  | None => None
  end.

(** [socket.userId = userId] *)
Definition bind_userId (uid : string) (sock : Socket) : Socket :=
  {| userId := Some uid; rooms := rooms sock |}.

(** [socket.join(room)] *)
Definition join_room (room : string) (sock : Socket) : Socket :=
  {| userId := userId sock; rooms := {[room]} ∪ rooms sock |}.

(** [io.on('connection', (socket) => ...)]: the new socket is unbound and is
    in the room named by its own id, where socket.io puts every socket. *)
Definition on_connection (s : string) (srv : Server) : Server * list Emit :=
  (with_sockets srv (<[s := {| userId := None; rooms := {[s]} |}]> (sockets srv)), []).

(** The body of [socket.on('join', ({ userId }) => ...)], once the parameter
    is bound: [uid] is the [userId] field of the argument. The binding itself
    is in [handle_join]. *)
Definition on_join (s : string) (uid : option string) (srv : Server)
  : Server * list Emit :=
  match required uid with
  | None => (srv, [])
  | Some u =>
      let srv1 := with_sockets srv (alter (bind_userId u) s (sockets srv)) in
      let srv2 := with_onlineUsers srv1 (JsMap.set u s (onlineUsers srv1)) in
      (srv2, [io_emit (EvOnlineUsers (JsMap.keys (onlineUsers srv2)))])
  end.

(** [socket.on('disconnect', () => ...)], for the socket object [sock] that
    socket.io has already taken out of [sockets] and of its rooms. *)
Definition on_disconnect (sock : Socket) (srv : Server) : Server * list Emit :=
  match required (userId sock) with
  | Some u =>
      let srv1 := with_onlineUsers srv (JsMap.delete u (onlineUsers srv)) in
      (srv1, [io_emit (EvOnlineUsers (JsMap.keys (onlineUsers srv1)))])
  | None => (srv, [])
  end.

(** The body of [socket.on('joinConversation', ({ conversationId }) => ...)],
    once the parameter is bound; the binding itself is in
    [handle_joinConversation]. *)
Definition on_joinConversation (s : string) (cid : option string) (srv : Server)
  : Server * list Emit :=
  match required cid with
  | None => (srv, [])
  | Some c => (with_sockets srv (alter (join_room c) s (sockets srv)), [])
  end.

(** The [try] block of the [sendMessage] handler. *)
Definition sendMessage_body (messageData : option MessageData) (now : Z)
    (save_ok : bool) (srv : Server) : Result (Server * list Emit) :=
  match messageData with
  | None => Ok (srv, [])
  | Some d =>
      match required (senderId d), required (receiverId d) with
      | Some sender, Some receiver =>
          let cid := getConversationId sender receiver in
          let d' := set_conversationId d cid in
          let message := new_Message d' now in
          match save message save_ok srv with
          | Throw error => Throw error
          | Ok srv' =>
              let to_group := [io_to cid (EvMessage message)] in
              let to_receiver :=
                match required (JsMap.get receiver (onlineUsers srv')) with
                | Some receiverSocketId =>
                    [io_to receiverSocketId (EvMessage message)]
                | None => []
                end in
              Ok (srv', to_group ++ to_receiver)
          end
      | _, _ => Ok (srv, [])
      end
  end.

(** [socket.on('sendMessage', async (messageData) => ...)] *)
Definition on_sendMessage (s : string) (messageData : option MessageData)
    (now : Z) (save_ok : bool) (srv : Server) : Server * list Emit :=
  try_catch (sendMessage_body messageData now save_ok srv)
    (fun error => (srv, [socket_emit s (EvMessageError "Failed to send message")])).

(** The query of the [fetchMessages] handler. *)
Definition fetch_query (c : string) (coll : list Message) : list Message :=
  Query.limit 50 (Query.sort 1 (Query.find (Query.by_conversationId c) coll)).

(** The [try] block of the [fetchMessages] handler. *)
Definition fetchMessages_body (s : string) (cid : option string)
    (find_ok : bool) (srv : Server) : Result (Server * list Emit) :=
  match required cid with
  | None => Ok (srv, [])
  | Some c =>
      match read find_ok srv with
      | Throw error => Throw error
      | Ok coll =>
          Ok (srv, [socket_emit s (EvPreviousMessages c (fetch_query c coll))])
      end
  end.

(** The body of [socket.on('fetchMessages', async ({ conversationId }) => ...)],
    once the parameter is bound; the binding itself, which comes before the
    [try] block, is in [handle_fetchMessages]. *)
Definition on_fetchMessages (s : string) (cid : option string)
    (find_ok : bool) (srv : Server) : Server * list Emit :=
  try_catch (fetchMessages_body s cid find_ok srv)
    (fun error => (srv, [socket_emit s (EvFetchError "Failed to fetch messages")])).

(** What reaches the server: a new connection, or an event on a socket,
    together with what the clock and the database answer while it is
    handled. The payload of [join], [joinConversation] and [fetchMessages] is
    an object whose one field may be missing; the payload of [sendMessage]
    may be missing itself, as its guard tests. The same events sent with no
    argument at all are among the [Packet]s below. *)
Inductive ClientEvent : Type :=
| connection (s : string)
| join (s : string) (uid : option string)
| disconnect (s : string)
| joinConversation (s : string) (cid : option string)
| sendMessage (s : string) (messageData : option MessageData) (now : Z) (save_ok : bool)
| fetchMessages (s : string) (cid : option string) (find_ok : bool).

(** The socket an event is about. *)
Definition event_socket (e : ClientEvent) : string :=
  match e with
  | connection s | join s _ | disconnect s | joinConversation s _
  | sendMessage s _ _ _ | fetchMessages s _ _ => s
  end.

(** One event handled to completion. Only a connected socket has handlers,
    and socket ids are unique. *)
Definition step (srv : Server) (e : ClientEvent) : Server * list Emit :=
  match sockets srv !! event_socket e, e with
  | None, connection s => on_connection s srv
  | Some sock, disconnect s =>
      on_disconnect sock (with_sockets srv (delete s (sockets srv)))
  | Some _, join s uid => on_join s uid srv
  | Some _, joinConversation s cid => on_joinConversation s cid srv
  | Some _, sendMessage s messageData now save_ok =>
      on_sendMessage s messageData now save_ok srv
  | Some _, fetchMessages s cid find_ok => on_fetchMessages s cid find_ok srv
  | _, _ => (srv, [])
  end.

(** The payload of an emit. *)
Definition emitted (e : Emit) : ServerEvent :=
  match e with
  | io_emit ev | io_to _ ev | socket_emit _ ev => ev
  end.

(** The socket [s] is connected. *)
Definition connected (srv : Server) (s : string) : bool :=
  bool_decide (is_Some (sockets srv !! s)).

(** The socket [s] is connected and in the room [room]. *)
Definition in_room (srv : Server) (s room : string) : bool :=
  match sockets srv !! s with
  | Some sock => bool_decide (room ∈ rooms sock)
  | None => false
  end.

(** Whether the socket [s] is sent the emit [e] by the server [srv]:
    [io.emit] reaches every connected socket, [io.to(room).emit] the sockets
    in the room, [socket.emit] the socket itself. *)
Definition receives (srv : Server) (s : string) (e : Emit) : bool :=
  match e with
  | io_emit _ => connected srv s
  | io_to room _ => in_room srv s room
  | socket_emit s' _ => String.eqb s' s && connected srv s
  end.

(** The events the socket [s] is sent out of [es], in order. *)
Definition delivered (srv : Server) (s : string) (es : list Emit) : list ServerEvent :=
  map emitted (List.filter (receives srv s) es).

(** A run of events: the final server, and what each socket was sent. *)
Fixpoint run (srv : Server) (evs : list ClientEvent) : Server :=
  match evs with
  | [] => srv
  | e :: evs' => run (fst (step srv e)) evs'
  end.

Fixpoint inbox (s : string) (srv : Server) (evs : list ClientEvent) : list ServerEvent :=
  match evs with
  | [] => []
  | e :: evs' =>
      let '(srv', es) := step srv e in
      delivered srv' s es ++ inbox s srv' evs'
  end.

(** The presence registry in the words of the specification. *)
Definition lookup_user (uid : string) (srv : Server) : option string :=
  JsMap.get uid (onlineUsers srv).

(** The identity a connection is bound to, if it is connected and bound. *)
Definition bound_userId (s : string) (srv : Server) : option string :=
  sockets srv !! s ≫= userId.

(** ** The chat history route *)

Section ChatRoutes.

(** The request and the [authenticateJWT] middleware are not among the
    sources: the middleware either answers the request itself with a
    status, or passes it on. *)
Variable Request : Type.
Variable authenticateJWT : Request → option nat.

Inductive Response : Type :=
| status (code : nat)
| json (docs : list Message).

(** [router.get('/', authenticateJWT, async (req, res) => ...)]; a read
    that fails leaves the request unanswered. *)
Definition get_chat (req : Request) (find_ok : bool) (srv : Server)
  : option Response :=
  match authenticateJWT req with
  | Some code => Some (status code)
  | None =>
      match read find_ok srv with
      | Ok coll => Some (json (Query.sort (-1) (Query.find Query.all coll)))
      | Throw _ => None
      end
  end.

End ChatRoutes.

(** An announce of an identity other than [u] that the [join] handler
    accepts on the socket [s]. *)
Definition rebinds (s u : string) (e : ClientEvent) : bool :=
  match e with
  | join s' uid =>
      bool_decide (s' = s) &&
      match required uid with
      | Some u' => negb (String.eqb u' u)
      | None => false
      end
  | _ => false
  end.

(** The disconnect of the socket [s]. *)
Definition terminates (s : string) (e : ClientEvent) : bool :=
  match e with
  | disconnect s' => bool_decide (s' = s)
  | _ => false
  end.

(** The guard of the [sendMessage] handler:
    [!messageData || !messageData.senderId || !messageData.receiverId]. *)
Definition invalid_messageData (messageData : option MessageData) : bool :=
  match messageData with
  | None => true
  | Some d => negb (Js.truthy (senderId d)) || negb (Js.truthy (receiverId d))
  end.

(** The payload [d] with the [conversationId] the client chose to supply
    ([None]: none supplied). *)
Definition client_conversationId (d : MessageData) (c : option string) : MessageData :=
  {| senderId := senderId d; receiverId := receiverId d;
     conversationId := c; body := body d; timestamp := timestamp d |}.

(** The emit carries a chat message. *)
Definition is_message (e : Emit) : bool :=
  match emitted e with
  | EvMessage _ => true
  | _ => false
  end.

(** Ascending and descending order of timestamps. *)
Definition oldest_first (m1 m2 : Message) : Prop :=
  msg_timestamp m1 ≤ msg_timestamp m2.

Definition newest_first (m1 m2 : Message) : Prop :=
  msg_timestamp m2 ≤ msg_timestamp m1.

(** [recent(conversationId, limit)] in the words of the specification: the
    [limit] most recent messages of the conversation, oldest of them first. *)
Definition recent_spec (c : string) (limit : nat) (coll : list Message)
  : list Message :=
  let sorted := Query.sort 1 (Query.find (Query.by_conversationId c) coll) in
  drop (length sorted - limit) sorted.

(** [n] messages from alice to bob, sent at times [1] to [n]. *)
Definition hello : MessageData :=
  {| senderId := Some "alice"; receiverId := Some "bob";
     conversationId := None; body := "hello"; timestamp := None |}.

Definition chatter (s : string) (n : nat) : list ClientEvent :=
  map (λ t, sendMessage s (Some hello) (Z.of_nat t) true) (seq 1 n).

(** The two events that write the registry. *)
Definition presence_event (e : ClientEvent) : bool :=
  match e with
  | join _ _ | disconnect _ => true
  | _ => false
  end.

(** A [sendMessage] whose write succeeds. *)
Definition saved_send (e : ClientEvent) : bool :=
  match e with
  | sendMessage _ _ _ save_ok => save_ok
  | _ => false
  end.

(** What every state the handlers produce satisfies: the registry lists no
    user twice and no empty user id, a socket is bound to a non-empty user id
    if at all, and a connected socket is in the room of its own id. *)
Record well_formed (srv : Server) : Prop := {
  wf_keys_NoDup : NoDup (JsMap.keys (onlineUsers srv));
  wf_keys_truthy : Forall (λ u, Js.truthy_string u) (JsMap.keys (onlineUsers srv));
  wf_bound_truthy : ∀ s u, bound_userId s srv = Some u → Js.truthy_string u;
  wf_own_room : ∀ s, connected srv s = true → in_room srv s s = true
}.

(** The string [a] followed by the separator and [b]. *)
Definition dashed (a b : string) : string := (a ++ "-" ++ b)%string.

(** The registry lists no key twice and no empty key. *)
Definition registry_ok (m : JsMap.t) : Prop :=
  NoDup (JsMap.keys m) ∧ Forall (λ u, Js.truthy_string u) (JsMap.keys m).

(** Every socket is bound to a non-empty user, if to any, and is in the room
    of its own id. *)
Definition sockets_ok (ss : gmap string Socket) : Prop :=
  ∀ s sock, ss !! s = Some sock →
    (∀ u, userId sock = Some u → Js.truthy_string u) ∧ s ∈ rooms sock.

(** ** Events as they arrive, with or without an argument *)

(** Binding a parameter pattern such as [({ userId })] reads a property of
    the argument: when the event was sent with no argument ([None]) this
    throws a TypeError. *)
Definition destructure_error : string :=
  "TypeError: Cannot destructure property of undefined".

Definition destructure {A : Type} (arg : option A) : Result A :=
  match arg with
  | Some fields => Ok fields
  | None => Throw destructure_error
  end.

(** [socket.on('join', ({ userId }) => ...)] from the argument on. The
    parameter is bound outside any [try]: what it throws, nothing catches. *)
Definition handle_join (s : string) (arg : option (option string)) (srv : Server)
  : Result (Server * list Emit) :=
  match destructure arg with
  | Throw error => Throw error
  | Ok uid => Ok (on_join s uid srv)
  end.

(** [socket.on('joinConversation', ({ conversationId }) => ...)] from the
    argument on. *)
Definition handle_joinConversation (s : string) (arg : option (option string))
    (srv : Server) : Result (Server * list Emit) :=
  match destructure arg with
  | Throw error => Throw error
  | Ok cid => Ok (on_joinConversation s cid srv)
  end.

(** [socket.on('fetchMessages', async ({ conversationId }) => ...)] from the
    argument on. The parameter is bound before the [try] block is entered, so
    its failure is a rejection that nothing handles. *)
Definition handle_fetchMessages (s : string) (arg : option (option string))
    (find_ok : bool) (srv : Server) : Result (Server * list Emit) :=
  match destructure arg with
  | Throw error => Throw error
  | Ok cid => Ok (on_fetchMessages s cid find_ok srv)
  end.

(** [socket.on('sendMessage', async (messageData) => ...)] from the argument
    on: the parameter is a plain name, the guard inside the [try] tests it,
    and the [catch] takes whatever the block throws. *)
Definition handle_sendMessage (s : string) (messageData : option MessageData)
    (now : Z) (save_ok : bool) (srv : Server) : Result (Server * list Emit) :=
  Ok (on_sendMessage s messageData now save_ok srv).

(** What a client can make reach the server: the events of [ClientEvent],
    and [join], [joinConversation] and [fetchMessages] sent with no argument
    (the outer [None]). *)
Inductive Packet : Type :=
| packet_connection (s : string)
| packet_join (s : string) (arg : option (option string))
| packet_disconnect (s : string)
| packet_joinConversation (s : string) (arg : option (option string))
| packet_sendMessage (s : string) (messageData : option MessageData) (now : Z)
    (save_ok : bool)
| packet_fetchMessages (s : string) (arg : option (option string)) (find_ok : bool).

Definition packet_socket (p : Packet) : string :=
  match p with
  | packet_connection s | packet_join s _ | packet_disconnect s
  | packet_joinConversation s _ | packet_sendMessage s _ _ _
  | packet_fetchMessages s _ _ => s
  end.

(** One packet handled. [Throw] is an exception that reaches the top of the
    event loop: the server has no handler for it, the process exits, and the
    registry and every connection go with it. *)
Definition receive (srv : Server) (p : Packet) : Result (Server * list Emit) :=
  match sockets srv !! packet_socket p, p with
  | None, packet_connection s => Ok (on_connection s srv)
  | Some sock, packet_disconnect s =>
      Ok (on_disconnect sock (with_sockets srv (delete s (sockets srv))))
  | Some _, packet_join s arg => handle_join s arg srv
  | Some _, packet_joinConversation s arg => handle_joinConversation s arg srv
  | Some _, packet_sendMessage s messageData now save_ok =>
      handle_sendMessage s messageData now save_ok srv
  | Some _, packet_fetchMessages s arg find_ok =>
      handle_fetchMessages s arg find_ok srv
  | _, _ => Ok (srv, [])
  end.

(** The packet of an event that carries its argument. *)
Definition packet_of (e : ClientEvent) : Packet :=
  match e with
  | connection s => packet_connection s
  | join s uid => packet_join s (Some uid)
  | disconnect s => packet_disconnect s
  | joinConversation s cid => packet_joinConversation s (Some cid)
  | sendMessage s messageData now save_ok =>
      packet_sendMessage s messageData now save_ok
  | fetchMessages s cid find_ok => packet_fetchMessages s (Some cid) find_ok
  end.

(** The event carries an argument that lacks what the guard of its handler
    asks for. *)
Definition lacks_field (e : ClientEvent) : Prop :=
  match e with
  | sendMessage _ messageData _ _ => invalid_messageData messageData = true
  | join _ uid => Js.truthy uid = false
  | fetchMessages _ cid _ => Js.truthy cid = false
  | _ => False
  end.


(** A run of packets, up to the first that makes the process exit. *)
Fixpoint receive_all (srv : Server) (ps : list Packet) : Result Server :=
  match ps with
  | [] => Ok srv
  | p :: ps' =>
      match receive srv p with
      | Ok (srv', _) => receive_all srv' ps'
      | Throw error => Throw error
      end
  end.

(** * Properties *)

(** ** Conversation addressing *)

Example getConversationId_ab : getConversationId "a" "b" = "a-b".
Proof. reflexivity. Qed.

Example getConversationId_ba : getConversationId "b" "a" = "a-b".
Proof. reflexivity. Qed.

(** Identities that contain the separator can collide. *)
Example getConversationId_sep :
  getConversationId "a-b" "c" = getConversationId "a" "b-c".
Proof. reflexivity. Qed.

Section Addressing.

Lemma ltb_compare (x y : string) : String.ltb x y = true ↔ String.compare x y = Lt.
Proof. unfold String.ltb. destruct (String.compare x y); split; congruence. Qed.

(** Sorting two strings puts the smaller one first. *)
Lemma sort_pair (a b : string) :
  Js.sort [a; b] =
    match String.compare a b with
    | Lt => [a; b]
    | _ => [b; a]
    end.
Proof.
  cbn [Js.sort Js.sort_insert]. unfold String.ltb.
  pose proof (String.compare_antisym a b) as Hanti.
  destruct (String.compare b a) eqn:Hba; cbn in Hanti; rewrite Hanti.
  - apply String.compare_eq_iff in Hba. subst b.
    rewrite String.eqb_refl. reflexivity.
  - reflexivity.
  - assert (String.eqb b a = false) as ->; [|reflexivity].
    apply String.eqb_neq. intros ->. congruence.
Qed.

Lemma sort_pair_cases (a b : string) :
  Js.sort [a; b] = [a; b] ∨ Js.sort [a; b] = [b; a].
Proof. rewrite sort_pair. destruct (String.compare a b); auto. Qed.

Lemma sort_pair_comm (a b : string) : Js.sort [a; b] = Js.sort [b; a].
Proof.
  rewrite !sort_pair, (String.compare_antisym a b).
  destruct (String.compare b a) eqn:Hba; cbn; try reflexivity.
  apply String.compare_eq_iff in Hba. subst. reflexivity.
Qed.

Lemma join_pair (x y : string) : Js.join "-" [x; y] = (x ++ "-" ++ y)%string.
Proof. reflexivity. Qed.

(** A joined pair splits at its first separator. *)
Lemma join_pair_inj (x y x' y' : string) :
  no_separator x → no_separator x' →
  (x ++ "-" ++ y)%string = (x' ++ "-" ++ y')%string → x = x' ∧ y = y'.
Proof.
  revert x'. induction x as [|c x IH]; intros [|c' x'] Hx Hx' Heq; simpl in *.
  - injection Heq as Heq. auto.
  - injection Heq as <- _. simpl in Hx'. destruct Hx'.
  - injection Heq as -> _. simpl in Hx. destruct Hx.
  - injection Heq as -> Heq.
    apply andb_prop_elim in Hx as [_ Hx]. apply andb_prop_elim in Hx' as [_ Hx'].
    destruct (IH x' Hx Hx' Heq) as [-> ->]. auto.
Qed.

End Addressing.

(** C7. [getConversationId] is commutative, and on identities without the
    separator ['-'] it is injective on unordered pairs: two pairs with the
    same conversation id are the same pair, up to order. *)
Theorem getConversationId_comm_inj (A B C D : string) :
  getConversationId A B = getConversationId B A ∧
  (no_separator A → no_separator B → no_separator C → no_separator D →
   getConversationId A B = getConversationId C D →
   (A = C ∧ B = D) ∨ (A = D ∧ B = C)).
Proof.
  split.
  - unfold getConversationId. rewrite sort_pair_comm. reflexivity.
  - intros HA HB HC HD. unfold getConversationId.
    destruct (sort_pair_cases A B) as [-> | ->],
             (sort_pair_cases C D) as [-> | ->];
      rewrite !join_pair; intros Heq;
      apply join_pair_inj in Heq as [-> ->]; auto.
Qed.

Lemma getConversationId_comm_inj_witness :
  getConversationId "bob" "alice" = getConversationId "alice" "bob" ∧
  (("bob" = "alice" ∧ "alice" = "bob") ∨ ("bob" = "bob" ∧ "alice" = "alice")).
Proof.
  split.
  - apply (getConversationId_comm_inj "bob" "alice" "alice" "bob").
  - apply (getConversationId_comm_inj "bob" "alice" "alice" "bob");
      solve [exact I | reflexivity].
Defined.

(** ** The presence registry *)

Section MapLemmas.

Implicit Types (k v : string) (m : JsMap.t).

Lemma get_set_eq k v m : JsMap.get k (JsMap.set k v m) = Some v.
Proof.
  induction m as [|[k' v'] m IH]; simpl.
  - rewrite String.eqb_refl. reflexivity.
  - destruct (String.eqb k' k) eqn:E; simpl.
    + rewrite String.eqb_refl. reflexivity.
    + rewrite E. exact IH.
Qed.

Lemma get_set_ne k k' v m :
  k ≠ k' → JsMap.get k' (JsMap.set k v m) = JsMap.get k' m.
Proof.
  intros Hne. induction m as [|[k0 v0] m IH]; simpl.
  - apply String.eqb_neq in Hne. rewrite Hne. reflexivity.
  - destruct (String.eqb k0 k) eqn:E; simpl.
    + apply String.eqb_eq in E. subst k0.
      apply String.eqb_neq in Hne. rewrite Hne. reflexivity.
    + rewrite IH. reflexivity.
Qed.

Lemma get_delete_eq k m : JsMap.get k (JsMap.delete k m) = None.
Proof.
  induction m as [|[k' v'] m IH]; simpl; [reflexivity|].
  destruct (String.eqb k' k) eqn:E; simpl; [exact IH|].
  rewrite E. exact IH.
Qed.

Lemma get_delete_ne k k' m :
  k ≠ k' → JsMap.get k' (JsMap.delete k m) = JsMap.get k' m.
Proof.
  intros Hne. induction m as [|[k0 v0] m IH]; simpl; [reflexivity|].
  destruct (String.eqb k0 k) eqn:E; simpl.
  - apply String.eqb_eq in E. subst k0.
    apply String.eqb_neq in Hne. rewrite Hne. exact IH.
  - rewrite IH. reflexivity.
Qed.

(** A user is listed as online exactly when the registry has an entry. *)
Lemma in_keys_get k m : In k (JsMap.keys m) ↔ is_Some (JsMap.get k m).
Proof.
  induction m as [|[k' v'] m IH]; simpl.
  - split; [tauto|]. intros [? ?]. discriminate.
  - destruct (String.eqb k' k) eqn:E.
    + apply String.eqb_eq in E. split; eauto.
    + apply String.eqb_neq in E. rewrite <- IH. tauto.
Qed.

End MapLemmas.

Section StepLemmas.

Implicit Types (srv : Server) (s u : string) (sock : Socket).

Lemma required_Some (u : string) :
  Js.truthy_string u → required (Some u) = Some u.
Proof. destruct u; simpl; [intros []|reflexivity]. Qed.

Lemma required_truthy (v : option string) (u : string) :
  required v = Some u → v = Some u ∧ Js.truthy_string u.
Proof.
  destruct v as [w|]; simpl; [|discriminate].
  destruct (Js.truthy_string w) eqn:E; [|discriminate].
  intros [= ->]. rewrite E. split; [reflexivity|exact I].
Qed.

Lemma required_falsy (v : option string) :
  Js.truthy v = false → required v = None.
Proof. destruct v as [w|]; simpl; [|reflexivity]. intros ->. reflexivity. Qed.

Lemma step_join srv s sock u :
  sockets srv !! s = Some sock → Js.truthy_string u →
  step srv (join s (Some u)) =
    (let srv1 := with_sockets srv (alter (bind_userId u) s (sockets srv)) in
     let srv2 := with_onlineUsers srv1 (JsMap.set u s (onlineUsers srv1)) in
     (srv2, [io_emit (EvOnlineUsers (JsMap.keys (onlineUsers srv2)))])).
Proof.
  intros Hs Hu. unfold step, on_join. cbn [event_socket].
  rewrite Hs, (required_Some u Hu). reflexivity.
Qed.

Lemma step_disconnect_bound srv s sock u :
  sockets srv !! s = Some sock → userId sock = Some u → Js.truthy_string u →
  step srv (disconnect s) =
    (let srv0 := with_sockets srv (delete s (sockets srv)) in
     let srv1 := with_onlineUsers srv0 (JsMap.delete u (onlineUsers srv0)) in
     (srv1, [io_emit (EvOnlineUsers (JsMap.keys (onlineUsers srv1)))])).
Proof.
  intros Hs Hu Ht. unfold step, on_disconnect. cbn [event_socket].
  rewrite Hs, Hu, (required_Some u Ht). reflexivity.
Qed.

End StepLemmas.

Example presence_last_announce_wins :
  lookup_user "U"
    (run initial [connection "h1"; connection "h2";
                  join "h1" (Some "U"); join "h2" (Some "U")]) = Some "h2".
Proof. vm_compute. reflexivity. Qed.

(** C1. Two connections announce the same user and the superseded one then
    disconnects. After the two announces the registry holds the newer handle,
    and disconnecting the newer connection empties the entry; but the
    disconnect of the superseded connection [h1] deletes the user's entry
    although it holds [h2]: the user is no longer found while [h2] is still
    connected and bound to it. *)
Theorem stale_disconnect_clears_presence
    (srv : Server) (h1 h2 U : string) (sock1 sock2 : Socket) :
  sockets srv !! h1 = Some sock1 → sockets srv !! h2 = Some sock2 →
  h1 ≠ h2 → Js.truthy_string U →
  let srv2 := run srv [join h1 (Some U); join h2 (Some U)] in
  lookup_user U srv2 = Some h2 ∧
  lookup_user U (run srv2 [disconnect h2]) = None ∧
  lookup_user U (run srv2 [disconnect h1]) = None ∧
  bound_userId h2 (run srv2 [disconnect h1]) = Some U.
Proof.
  intros H1 H2 Hne HU. cbn [run].
  rewrite (step_join srv h1 sock1 U H1 HU). cbn [fst].
  set (srv1 := with_onlineUsers _ _).
  assert (sockets srv1 !! h2 = Some sock2) as H2'.
  { subst srv1. simpl. rewrite lookup_alter_ne by done. exact H2. }
  rewrite (step_join srv1 h2 sock2 U H2' HU). cbn [fst].
  set (srv2 := with_onlineUsers _ _).
  assert (sockets srv2 !! h2 = Some (bind_userId U sock2)) as Hb2.
  { subst srv2. cbn [sockets with_sockets with_onlineUsers].
    rewrite lookup_alter_eq, H2'. reflexivity. }
  assert (sockets srv2 !! h1 = Some (bind_userId U sock1)) as Hb1.
  { subst srv2 srv1. cbn [sockets with_sockets with_onlineUsers].
    rewrite lookup_alter_ne by done. rewrite lookup_alter_eq, H1. reflexivity. }
  split; [|split; [|split]].
  - subst srv2. unfold lookup_user. simpl. apply get_set_eq.
  - rewrite (step_disconnect_bound srv2 h2 _ U Hb2 eq_refl HU).
    unfold lookup_user. simpl. apply get_delete_eq.
  - rewrite (step_disconnect_bound srv2 h1 _ U Hb1 eq_refl HU).
    unfold lookup_user. simpl. apply get_delete_eq.
  - rewrite (step_disconnect_bound srv2 h1 _ U Hb1 eq_refl HU).
    unfold bound_userId. cbn [fst with_onlineUsers with_sockets sockets].
    rewrite lookup_delete_ne by done. rewrite Hb2. reflexivity.
Qed.

Lemma stale_disconnect_clears_presence_witness :
  let srv := run initial [connection "h1"; connection "h2"] in
  let srv2 := run srv [join "h1" (Some "U"); join "h2" (Some "U")] in
  lookup_user "U" srv2 = Some "h2" ∧
  lookup_user "U" (run srv2 [disconnect "h2"]) = None ∧
  lookup_user "U" (run srv2 [disconnect "h1"]) = None ∧
  bound_userId "h2" (run srv2 [disconnect "h1"]) = Some "U".
Proof.
  apply (stale_disconnect_clears_presence
           (run initial [connection "h1"; connection "h2"]) "h1" "h2" "U"
           {| userId := None; rooms := {["h1"]} |}
           {| userId := None; rooms := {["h2"]} |}).
  - vm_compute. reflexivity.
  - vm_compute. reflexivity.
  - discriminate.
  - exact I.
Defined.

(** C10. A connection that announces [u1] and then a different [u2] leaves
    the entry of [u1] in place: both users map to its handle, its disconnect
    removes the entry of [u2] only, and [u1] stays in the list of online
    users that is broadcast, with no connection bound to it (when no other
    connection was). *)
Theorem reannounce_leaves_stale_entry
    (srv : Server) (h u1 u2 : string) (sock : Socket) :
  sockets srv !! h = Some sock →
  Js.truthy_string u1 → Js.truthy_string u2 → u1 ≠ u2 →
  let srv2 := run srv [join h (Some u1); join h (Some u2)] in
  let srv3 := fst (step srv2 (disconnect h)) in
  lookup_user u1 srv2 = Some h ∧ lookup_user u2 srv2 = Some h ∧
  lookup_user u2 srv3 = None ∧ lookup_user u1 srv3 = Some h ∧
  snd (step srv2 (disconnect h)) =
    [io_emit (EvOnlineUsers (JsMap.keys (onlineUsers srv3)))] ∧
  In u1 (JsMap.keys (onlineUsers srv3)) ∧
  ((∀ s, s ≠ h → bound_userId s srv ≠ Some u1) →
   ∀ s, bound_userId s srv3 ≠ Some u1).
Proof.
  intros Hh Hu1 Hu2 Hne. cbn [run].
  rewrite (step_join srv h sock u1 Hh Hu1). cbn [fst].
  set (srv1 := with_onlineUsers _ _).
  assert (sockets srv1 !! h = Some (bind_userId u1 sock)) as Hh1.
  { subst srv1. cbn [sockets with_sockets with_onlineUsers].
    rewrite lookup_alter_eq, Hh. reflexivity. }
  rewrite (step_join srv1 h _ u2 Hh1 Hu2). cbn [fst].
  set (srv2 := with_onlineUsers _ _).
  assert (sockets srv2 !! h = Some (bind_userId u2 (bind_userId u1 sock))) as Hh2.
  { subst srv2. cbn [sockets with_sockets with_onlineUsers].
    rewrite lookup_alter_eq, Hh1. reflexivity. }
  rewrite (step_disconnect_bound srv2 h _ u2 Hh2 eq_refl Hu2).
  cbn [fst snd]. unfold lookup_user.
  assert (JsMap.get u1 (onlineUsers srv2) = Some h) as Hg1.
  { subst srv2 srv1. cbn [onlineUsers with_sockets with_onlineUsers].
    rewrite get_set_ne by congruence. apply get_set_eq. }
  assert (JsMap.get u1 (JsMap.delete u2 (onlineUsers srv2)) = Some h) as Hg3.
  { rewrite get_delete_ne by congruence. exact Hg1. }
  repeat split.
  - exact Hg1.
  - subst srv2. cbn [onlineUsers with_sockets with_onlineUsers]. apply get_set_eq.
  - cbn [onlineUsers with_sockets with_onlineUsers]. apply get_delete_eq.
  - exact Hg3.
  - apply in_keys_get. cbn [onlineUsers with_sockets with_onlineUsers].
    rewrite Hg3. eauto.
  - intros Hother s. unfold bound_userId.
    cbn [sockets with_sockets with_onlineUsers].
    destruct (decide (s = h)) as [->|Hs].
    + rewrite lookup_delete_eq. discriminate.
    + rewrite lookup_delete_ne by done.
      subst srv2 srv1. cbn [sockets with_sockets with_onlineUsers].
      rewrite !lookup_alter_ne by done. apply Hother, Hs.
Qed.

Lemma reannounce_leaves_stale_entry_witness :
  let srv := run initial [connection "h"] in
  let srv2 := run srv [join "h" (Some "u1"); join "h" (Some "u2")] in
  let srv3 := fst (step srv2 (disconnect "h")) in
  lookup_user "u1" srv2 = Some "h" ∧ lookup_user "u2" srv2 = Some "h" ∧
  lookup_user "u2" srv3 = None ∧ lookup_user "u1" srv3 = Some "h" ∧
  snd (step srv2 (disconnect "h")) =
    [io_emit (EvOnlineUsers (JsMap.keys (onlineUsers srv3)))] ∧
  In "u1" (JsMap.keys (onlineUsers srv3)) ∧
  (∀ s, bound_userId s srv3 ≠ Some "u1").
Proof.
  destruct (reannounce_leaves_stale_entry (run initial [connection "h"])
              "h" "u1" "u2" {| userId := None; rooms := {["h"]} |})
    as (H1 & H2 & H3 & H4 & H5 & H6 & H7).
  - vm_compute. reflexivity.
  - exact I.
  - exact I.
  - discriminate.
  - repeat split; try assumption.
    apply H7. intros s Hs. unfold bound_userId.
    change (sockets (run initial [connection "h"]))
      with (<["h" := {| userId := None; rooms := {["h"]} |}]>
              (∅ : gmap string Socket)).
    rewrite lookup_insert_ne by done. rewrite lookup_empty. discriminate.
Defined.

(** ** The connection session *)

Section Frame.

Implicit Types (srv : Server) (s : string).

Lemma sendMessage_sockets s messageData now save_ok srv :
  sockets (fst (on_sendMessage s messageData now save_ok srv)) = sockets srv.
Proof.
  unfold on_sendMessage, sendMessage_body, save.
  destruct messageData as [d|]; [|reflexivity].
  destruct (required (senderId d)); [|reflexivity].
  destruct (required (receiverId d)); [|reflexivity].
  destruct save_ok; reflexivity.
Qed.

Lemma sendMessage_onlineUsers s messageData now save_ok srv :
  onlineUsers (fst (on_sendMessage s messageData now save_ok srv)) = onlineUsers srv.
Proof.
  unfold on_sendMessage, sendMessage_body, save.
  destruct messageData as [d|]; [|reflexivity].
  destruct (required (senderId d)); [|reflexivity].
  destruct (required (receiverId d)); [|reflexivity].
  destruct save_ok; reflexivity.
Qed.

Lemma fetchMessages_state s cid find_ok srv :
  fst (on_fetchMessages s cid find_ok srv) = srv.
Proof.
  unfold on_fetchMessages, fetchMessages_body, read.
  destruct (required cid); [|reflexivity]. destruct find_ok; reflexivity.
Qed.

(** One event that neither re-binds nor ends the connection keeps its
    identity. *)
Lemma step_bound_userId srv s u e :
  bound_userId s srv = Some u →
  rebinds s u e = false → terminates s e = false →
  bound_userId s (fst (step srv e)) = Some u.
Proof.
  unfold bound_userId. intros Hb Hr Ht.
  destruct (sockets srv !! s) as [sock|] eqn:Hs; [|discriminate].
  simpl in Hb. unfold step.
  destruct e as [s'|s' uid|s'|s' cid|s' md now ok|s' cid ok]; cbn [event_socket];
    destruct (sockets srv !! s') as [sock'|] eqn:Hs';
    cbn [fst]; rewrite ?Hs; try exact Hb.
  - (* connection *)
    unfold on_connection. cbn [fst sockets with_sockets].
    rewrite lookup_insert_ne by congruence. rewrite Hs. exact Hb.
  - (* join *)
    unfold on_join. cbn [rebinds] in Hr.
    destruct (required uid) as [u'|]; cbn [fst]; [|rewrite Hs; exact Hb].
    cbn [sockets with_sockets with_onlineUsers].
    destruct (decide (s' = s)) as [->|Hne].
    + rewrite bool_decide_eq_true_2 in Hr by done. cbn in Hr.
      apply negb_false_iff, String.eqb_eq in Hr. subst u'.
      rewrite lookup_alter_eq, Hs. reflexivity.
    + rewrite lookup_alter_ne by done. rewrite Hs. exact Hb.
  - (* disconnect *)
    cbn [terminates] in Ht. apply bool_decide_eq_false in Ht.
    unfold on_disconnect.
    destruct (required (userId sock')); cbn [fst sockets with_sockets with_onlineUsers];
      rewrite lookup_delete_ne by done; rewrite Hs; exact Hb.
  - (* joinConversation *)
    unfold on_joinConversation.
    destruct (required cid) as [c|]; cbn [fst]; [|rewrite Hs; exact Hb].
    cbn [sockets with_sockets].
    destruct (decide (s' = s)) as [->|Hne].
    + rewrite lookup_alter_eq, Hs. exact Hb.
    + rewrite lookup_alter_ne by done. rewrite Hs. exact Hb.
  - (* sendMessage *)
    rewrite sendMessage_sockets, Hs. exact Hb.
  - (* fetchMessages *)
    rewrite fetchMessages_state, Hs. exact Hb.
Qed.

End Frame.

(** C6, as the code has it. A bound connection keeps its identity through
    every sequence of events that holds neither its disconnect nor an
    accepted announce of another identity on it; such an announce re-binds
    the connection to the identity announced. *)
Theorem bound_userId_until_reannounce
    (srv : Server) (s u : string) (evs : list ClientEvent) :
  bound_userId s srv = Some u →
  (Forall (λ e, rebinds s u e = false ∧ terminates s e = false) evs →
   bound_userId s (run srv evs) = Some u) ∧
  (∀ u', Js.truthy_string u' →
         bound_userId s (fst (step srv (join s (Some u')))) = Some u').
Proof.
  intros Hb. split.
  - intros Hevs. revert srv Hb.
    induction Hevs as [|e evs [Hr Ht] _ IH]; intros srv Hb; cbn [run].
    + exact Hb.
    + apply IH. apply step_bound_userId; assumption.
  - intros u' Hu'. unfold bound_userId in *.
    destruct (sockets srv !! s) as [sock|] eqn:Hs; [|discriminate].
    rewrite (step_join srv s sock u' Hs Hu').
    cbn [fst sockets with_sockets with_onlineUsers].
    rewrite lookup_alter_eq, Hs. reflexivity.
Qed.

Lemma bound_userId_until_reannounce_witness :
  let srv := run initial [connection "s1"; connection "s2"; join "s1" (Some "alice")] in
  bound_userId "s1"
    (run srv [joinConversation "s1" (Some "alice-bob"); join "s1" None;
              join "s1" (Some "alice"); join "s2" (Some "bob");
              fetchMessages "s1" (Some "alice-bob") true; disconnect "s2"])
    = Some "alice" ∧
  bound_userId "s1" (fst (step srv (join "s1" (Some "bob")))) = Some "bob".
Proof.
  destruct (bound_userId_until_reannounce
              (run initial [connection "s1"; connection "s2"; join "s1" (Some "alice")])
              "s1" "alice"
              [joinConversation "s1" (Some "alice-bob"); join "s1" None;
               join "s1" (Some "alice"); join "s2" (Some "bob");
               fetchMessages "s1" (Some "alice-bob") true; disconnect "s2"])
    as [Hkeep Hrebind].
  - vm_compute. reflexivity.
  - split.
    + apply Hkeep. repeat constructor.
    + apply Hrebind. exact I.
Defined.

(** C6 as stated fails: a bound connection that announces again is bound to
    the new identity. *)
Lemma bound_userId_rebinds :
  let srv := run initial [connection "s1"; join "s1" (Some "alice")] in
  bound_userId "s1" srv = Some "alice" ∧
  bound_userId "s1" (run srv [join "s1" (Some "bob")]) = Some "bob".
Proof. vm_compute. split; reflexivity. Qed.

(** ** Input errors *)

Lemma required_None (v : option string) : required v = None ↔ Js.truthy v = false.
Proof.
  destruct v as [w|]; simpl; [|tauto].
  destruct (Js.truthy_string w); split; congruence.
Qed.

Lemma sendMessage_invalid (messageData : option MessageData) (now : Z)
    (save_ok : bool) (srv : Server) :
  invalid_messageData messageData = true →
  sendMessage_body messageData now save_ok srv = Ok (srv, []).
Proof.
  unfold invalid_messageData, sendMessage_body.
  destruct messageData as [d|]; [|reflexivity].
  intros [H|H]%orb_true_iff; apply negb_true_iff, required_None in H; rewrite H.
  - reflexivity.
  - destruct (required (senderId d)); reflexivity.
Qed.

(** An event whose argument lacks a required field is dropped: a
    [sendMessage] without payload, sender or receiver, a [join] whose object
    has no user, a [fetchMessages] whose object has no conversation leave the
    whole server as it was and emit nothing, so no socket is sent anything,
    the sender included. *)
Theorem missing_field_dropped (srv : Server) (e : ClientEvent) :
  match e with
  | sendMessage _ messageData _ _ => invalid_messageData messageData = true
  | join _ uid => Js.truthy uid = false
  | fetchMessages _ cid _ => Js.truthy cid = false
  | _ => False
  end →
  step srv e = (srv, []) ∧ run srv [e] = srv ∧ ∀ s', inbox s' srv [e] = [].
Proof.
  intros He.
  assert (step srv e = (srv, [])) as Hstep.
  { unfold step.
    destruct e as [s0|s0 uid|s0|s0 cid|s0 md now ok|s0 cid ok]; try contradiction;
      cbn [event_socket]; destruct (sockets srv !! s0); try reflexivity.
    - unfold on_join. apply required_None in He. rewrite He. reflexivity.
    - unfold on_sendMessage. rewrite sendMessage_invalid by exact He. reflexivity.
    - unfold on_fetchMessages, fetchMessages_body.
      apply required_None in He. rewrite He. reflexivity. }
  split; [exact Hstep|]. split.
  - cbn [run]. rewrite Hstep. reflexivity.
  - intros s'. cbn [inbox]. rewrite Hstep. reflexivity.
Qed.

Lemma missing_field_dropped_witness :
  let srv := run initial [connection "s1"; join "s1" (Some "alice")] in
  let no_receiver :=
    {| senderId := Some "alice"; receiverId := None; conversationId := Some "x";
       body := "hi"; timestamp := None |} in
  (step srv (sendMessage "s1" (Some no_receiver) 7 true) = (srv, []) ∧
   run srv [sendMessage "s1" (Some no_receiver) 7 true] = srv ∧
   ∀ s', inbox s' srv [sendMessage "s1" (Some no_receiver) 7 true] = []) ∧
  (step srv (join "s1" (Some "")) = (srv, []) ∧
   run srv [join "s1" (Some "")] = srv ∧
   ∀ s', inbox s' srv [join "s1" (Some "")] = []) ∧
  (step srv (fetchMessages "s1" None true) = (srv, []) ∧
   run srv [fetchMessages "s1" None true] = srv ∧
   ∀ s', inbox s' srv [fetchMessages "s1" None true] = []).
Proof.
  split; [|split].
  - apply (missing_field_dropped _ (sendMessage "s1" _ 7 true)). reflexivity.
  - apply (missing_field_dropped _ (join "s1" (Some ""))). reflexivity.
  - apply (missing_field_dropped _ (fetchMessages "s1" None true)). reflexivity.
Defined.

(** ** The delivery router *)

Section Delivery.

Implicit Types (srv : Server) (s a b : string) (d : MessageData).

(** What the handler does with a payload it accepts. *)
Lemma step_sendMessage srv s sock d a b now save_ok :
  sockets srv !! s = Some sock →
  required (senderId d) = Some a → required (receiverId d) = Some b →
  step srv (sendMessage s (Some d) now save_ok) =
    (let cid := getConversationId a b in
     let message := new_Message (set_conversationId d cid) now in
     if save_ok then
       (with_messages srv (messages srv ++ [message]),
        io_to cid (EvMessage message) ::
          match required (lookup_user b srv) with
          | Some receiverSocketId => [io_to receiverSocketId (EvMessage message)]
          | None => []
          end)
     else (srv, [socket_emit s (EvMessageError "Failed to send message")])).
Proof.
  intros Hs Ha Hb. unfold step. cbn [event_socket]. rewrite Hs.
  unfold on_sendMessage, sendMessage_body, save. rewrite Ha, Hb.
  destruct save_ok; reflexivity.
Qed.

Lemma invalid_messageData_false d :
  invalid_messageData (Some d) = false →
  ∃ a b, required (senderId d) = Some a ∧ required (receiverId d) = Some b.
Proof.
  unfold invalid_messageData. intros [Ha Hb]%orb_false_iff.
  apply negb_false_iff in Ha, Hb.
  destruct (required (senderId d)) as [a|] eqn:Ea;
    [|apply required_None in Ea; congruence].
  destruct (required (receiverId d)) as [b|] eqn:Eb;
    [|apply required_None in Eb; congruence].
  eauto.
Qed.

Lemma delivered_socket_emit srv s sock s' ev :
  sockets srv !! s = Some sock →
  delivered srv s' [socket_emit s ev] = if bool_decide (s' = s) then [ev] else [].
Proof.
  intros Hs. unfold delivered, receives, connected. cbn [List.filter].
  destruct (decide (s' = s)) as [->|Hne].
  - rewrite String.eqb_refl, Hs, !bool_decide_eq_true_2 by eauto. reflexivity.
  - rewrite (bool_decide_eq_false_2 (s' = s)) by done.
    assert (String.eqb s s' = false) as ->; [|reflexivity].
    apply String.eqb_neq. congruence.
Qed.

End Delivery.

(** C3. The conversation id the client supplies has no effect: two payloads
    that differ in it alone are handled alike, state and emits. For an
    accepted payload whose write succeeds, the message persisted and the
    message of every emit carry the id derived from sender and receiver. *)
Theorem client_conversationId_ignored
    (srv : Server) (s : string) (d : MessageData) (now : Z) (save_ok : bool) :
  (∀ c1 c2,
     step srv (sendMessage s (Some (client_conversationId d c1)) now save_ok) =
     step srv (sendMessage s (Some (client_conversationId d c2)) now save_ok)) ∧
  (∀ sock a b,
     sockets srv !! s = Some sock →
     senderId d = Some a → Js.truthy_string a →
     receiverId d = Some b → Js.truthy_string b →
     ∃ message,
       msg_conversationId message = Some (getConversationId a b) ∧
       messages (fst (step srv (sendMessage s (Some d) now true))) =
         messages srv ++ [message] ∧
       Forall (λ e, emitted e = EvMessage message)
         (snd (step srv (sendMessage s (Some d) now true))) ∧
       In (io_to (getConversationId a b) (EvMessage message))
         (snd (step srv (sendMessage s (Some d) now true)))).
Proof.
  split.
  - intros c1 c2. unfold step. cbn [event_socket].
    destruct (sockets srv !! s); [|reflexivity].
    unfold on_sendMessage, sendMessage_body.
    cbn [client_conversationId senderId receiverId].
    destruct (required (senderId d)); [|reflexivity].
    destruct (required (receiverId d)); reflexivity.
  - intros sock a b Hs Ha Hta Hb Htb.
    rewrite (step_sendMessage srv s sock d a b now true Hs)
      by (rewrite ?Ha, ?Hb; apply required_Some; assumption).
    cbn [fst snd].
    exists (new_Message (set_conversationId d (getConversationId a b)) now).
    split; [reflexivity|]. split; [reflexivity|]. split.
    + constructor; [reflexivity|].
      destruct (required (lookup_user b srv)); repeat constructor.
    + left. reflexivity.
Qed.

Lemma client_conversationId_ignored_witness :
  let srv := run initial [connection "s1"; join "s1" (Some "bob")] in
  let d := {| senderId := Some "bob"; receiverId := Some "alice";
              conversationId := Some "eve-mallory"; body := "hi";
              timestamp := None |} in
  step srv (sendMessage "s1" (Some (client_conversationId d (Some "eve-mallory"))) 7 true) =
  step srv (sendMessage "s1" (Some (client_conversationId d None)) 7 true) ∧
  ∃ message,
    msg_conversationId message = Some (getConversationId "bob" "alice") ∧
    messages (fst (step srv (sendMessage "s1" (Some d) 7 true))) =
      messages srv ++ [message] ∧
    Forall (λ e, emitted e = EvMessage message)
      (snd (step srv (sendMessage "s1" (Some d) 7 true))) ∧
    In (io_to (getConversationId "bob" "alice") (EvMessage message))
      (snd (step srv (sendMessage "s1" (Some d) 7 true))).
Proof.
  intros srv d.
  destruct (client_conversationId_ignored srv "s1" d 7 true) as [Hsame Hderived].
  split; [apply Hsame|].
  apply (Hderived {| userId := Some "bob"; rooms := {["s1"]} |} "bob" "alice").
  - vm_compute. reflexivity.
  - reflexivity.
  - exact I.
  - reflexivity.
  - exact I.
Defined.

Example spoofed_conversationId_overwritten :
  let srv := run initial [connection "s1"] in
  let d := {| senderId := Some "bob"; receiverId := Some "alice";
              conversationId := Some "eve-mallory"; body := "hi";
              timestamp := None |} in
  map msg_conversationId (messages (run srv [sendMessage "s1" (Some d) 7 true]))
  = [Some "alice-bob"].
Proof. vm_compute. reflexivity. Qed.

(** C4. When the write of an accepted message fails, the store and the rest
    of the server are unchanged, the only emit is a [messageError] to the
    sender's socket, so the sender alone is sent anything and no one a
    [message]. Whatever the write does, either the message is stored and
    broadcast to its conversation, or it is not stored and no [message] is
    emitted. *)
Theorem save_failure_isolated
    (srv : Server) (s : string) (sock : Socket)
    (messageData : option MessageData) (now : Z) :
  sockets srv !! s = Some sock → invalid_messageData messageData = false →
  step srv (sendMessage s messageData now false) =
    (srv, [socket_emit s (EvMessageError "Failed to send message")]) ∧
  (∀ s', delivered srv s' (snd (step srv (sendMessage s messageData now false))) =
         if bool_decide (s' = s) then [EvMessageError "Failed to send message"]
         else []) ∧
  (∀ save_ok,
     let r := step srv (sendMessage s messageData now save_ok) in
     (∃ message cid,
        messages (fst r) = messages srv ++ [message] ∧
        hd_error (snd r) = Some (io_to cid (EvMessage message))) ∨
     (messages (fst r) = messages srv ∧
      Forall (λ e, is_message e = false) (snd r))).
Proof.
  intros Hs Hvalid.
  destruct messageData as [d|]; [|discriminate].
  destruct (invalid_messageData_false d Hvalid) as (a & b & Ha & Hb).
  assert (step srv (sendMessage s (Some d) now false) =
            (srv, [socket_emit s (EvMessageError "Failed to send message")])) as Hfail.
  { rewrite (step_sendMessage srv s sock d a b now false Hs Ha Hb). reflexivity. }
  split; [exact Hfail|]. split.
  - intros s'. rewrite Hfail. cbn [snd].
    apply (delivered_socket_emit srv s sock); exact Hs.
  - intros [|]; cbn zeta.
    + left. rewrite (step_sendMessage srv s sock d a b now true Hs Ha Hb).
      cbn [fst snd]. eexists _, _. split; reflexivity.
    + right. rewrite Hfail. cbn [fst snd]. split; [reflexivity|].
      repeat constructor.
Qed.

Lemma save_failure_isolated_witness :
  let srv := run initial [connection "sa"; connection "sb";
                          join "sa" (Some "alice"); join "sb" (Some "bob");
                          joinConversation "sb" (Some "alice-bob")] in
  let d := {| senderId := Some "alice"; receiverId := Some "bob";
              conversationId := None; body := "hi"; timestamp := None |} in
  step srv (sendMessage "sa" (Some d) 7 false) =
    (srv, [socket_emit "sa" (EvMessageError "Failed to send message")]) ∧
  delivered srv "sb" (snd (step srv (sendMessage "sa" (Some d) 7 false))) = [] ∧
  delivered srv "sa" (snd (step srv (sendMessage "sa" (Some d) 7 false))) =
    [EvMessageError "Failed to send message"].
Proof.
  intros srv d.
  destruct (save_failure_isolated srv "sa"
              {| userId := Some "alice"; rooms := {["sa"]} |} (Some d) 7)
    as (Hstep & Hdel & _).
  - vm_compute. reflexivity.
  - reflexivity.
  - split; [exact Hstep|]. split.
    + apply (Hdel "sb").
    + apply (Hdel "sa").
Defined.

(** C5, as the code has it. After an accepted message is stored it is emitted
    to the conversation's room, and then to the room of the receiver's
    registered handle whenever the receiver has one, whether or not that
    socket is in the conversation's room: a handle that is in both is sent
    the message twice. Without a registered handle there is the broadcast
    alone. *)
Theorem direct_delivery_unconditional
    (srv : Server) (s : string) (sock : Socket) (d : MessageData)
    (a b : string) (now : Z) :
  sockets srv !! s = Some sock →
  senderId d = Some a → Js.truthy_string a →
  receiverId d = Some b → Js.truthy_string b →
  let cid := getConversationId a b in
  let message := new_Message (set_conversationId d cid) now in
  let r := step srv (sendMessage s (Some d) now true) in
  (∀ h, lookup_user b srv = Some h → Js.truthy_string h →
        snd r = [io_to cid (EvMessage message); io_to h (EvMessage message)] ∧
        (in_room srv h h = true →
         delivered (fst r) h (snd r) =
           if in_room srv h cid then [EvMessage message; EvMessage message]
           else [EvMessage message])) ∧
  (lookup_user b srv = None → snd r = [io_to cid (EvMessage message)]).
Proof.
  intros Hs Ha Hta Hb Htb cid message r. subst r.
  rewrite (step_sendMessage srv s sock d a b now true Hs)
    by (rewrite ?Ha, ?Hb; apply required_Some; assumption).
  cbn [fst snd]. fold cid. fold message. split.
  - intros h Hh Hth. rewrite Hh, (required_Some h Hth). split; [reflexivity|].
    intros Hown. unfold delivered. cbn [List.filter receives].
    change (in_room (with_messages srv (messages srv ++ [message])))
      with (in_room srv).
    rewrite Hown. destruct (in_room srv h cid); reflexivity.
  - intros ->. reflexivity.
Qed.

Lemma direct_delivery_unconditional_witness :
  let srv := run initial [connection "sa"; connection "sb";
                          join "sa" (Some "alice"); join "sb" (Some "bob")] in
  let d := {| senderId := Some "alice"; receiverId := Some "bob";
              conversationId := None; body := "hi"; timestamp := None |} in
  let message := new_Message (set_conversationId d "alice-bob") 7 in
  let r := step srv (sendMessage "sa" (Some d) 7 true) in
  snd r = [io_to "alice-bob" (EvMessage message); io_to "sb" (EvMessage message)] ∧
  delivered (fst r) "sb" (snd r) = [EvMessage message].
Proof.
  intros srv d message r.
  destruct (direct_delivery_unconditional srv "sa"
              {| userId := Some "alice"; rooms := {["sa"]} |} d "alice" "bob" 7)
    as [Hdirect _].
  - vm_compute. reflexivity.
  - reflexivity.
  - exact I.
  - reflexivity.
  - exact I.
  - destruct (Hdirect "sb") as [Hout Hdel].
    + vm_compute. reflexivity.
    + exact I.
    + split; [exact Hout|]. apply Hdel. vm_compute. reflexivity.
Defined.

(** C5 as stated fails: the receiver's handle is in the conversation's room
    and is still emitted to directly, so it is sent the message twice. *)
Lemma group_member_receives_twice :
  let srv := run initial [connection "sa"; connection "sb";
                          join "sa" (Some "alice"); join "sb" (Some "bob");
                          joinConversation "sb" (Some "alice-bob")] in
  let d := {| senderId := Some "alice"; receiverId := Some "bob";
              conversationId := None; body := "hi"; timestamp := None |} in
  let message :=
    {| msg_senderId := Some "alice"; msg_receiverId := Some "bob";
       msg_conversationId := Some "alice-bob"; msg_body := "hi";
       msg_timestamp := 7 |} in
  let r := step srv (sendMessage "sa" (Some d) 7 true) in
  lookup_user "bob" srv = Some "sb" ∧
  in_room srv "sb" "alice-bob" = true ∧
  messages (fst r) = [message] ∧
  snd r = [io_to "alice-bob" (EvMessage message); io_to "sb" (EvMessage message)] ∧
  delivered (fst r) "sb" (snd r) = [EvMessage message; EvMessage message].
Proof. vm_compute. repeat split; reflexivity. Qed.

(** ** The message store *)

Section Queries.

#[local] Instance timestamp_order_total dir : Total (Query.timestamp_order dir).
Proof. intros m1 m2. unfold Query.timestamp_order. lia. Qed.

#[local] Instance timestamp_order_trans dir : Transitive (Query.timestamp_order dir).
Proof. intros m1 m2 m3. unfold Query.timestamp_order. lia. Qed.

Lemma StronglySorted_impl {A} (R1 R2 : relation A) (l : list A) :
  (∀ x y, R1 x y → R2 x y) → StronglySorted R1 l → StronglySorted R2 l.
Proof.
  intros HR. induction 1 as [|x l _ IH Hx]; constructor; [exact IH|].
  eapply Forall_impl; [exact Hx|]. intros y. apply HR.
Qed.

Lemma sort_permutation dir (l : list Message) : Query.sort dir l ≡ₚ l.
Proof. apply merge_sort_Permutation. Qed.

Lemma sort_ascending (l : list Message) :
  StronglySorted oldest_first (Query.sort 1 l).
Proof.
  apply (StronglySorted_impl (Query.timestamp_order 1)).
  - unfold Query.timestamp_order, oldest_first. intros; lia.
  - apply StronglySorted_merge_sort; apply _.
Qed.

Lemma sort_descending (l : list Message) :
  StronglySorted newest_first (Query.sort (-1) l).
Proof.
  apply (StronglySorted_impl (Query.timestamp_order (-1))).
  - unfold Query.timestamp_order, newest_first. intros; lia.
  - apply StronglySorted_merge_sort; apply _.
Qed.

Lemma find_all (coll : list Message) : Query.find Query.all coll = coll.
Proof.
  unfold Query.find, Query.all.
  induction coll as [|m coll IH]; simpl; [reflexivity|]. rewrite IH. reflexivity.
Qed.

Lemma find_by_conversationId (c : string) (coll : list Message) (m : Message) :
  m ∈ Query.find (Query.by_conversationId c) coll ↔
  m ∈ coll ∧ msg_conversationId m = Some c.
Proof.
  unfold Query.find, Query.by_conversationId.
  rewrite !list_elem_of_In, filter_In, bool_decide_eq_true. reflexivity.
Qed.

End Queries.

(** C9. For a request the middleware lets through, the history route answers
    with every stored message, of every conversation, each as often as it is
    stored, newest first, with no limit; a request the middleware rejects is
    answered by the middleware's status alone. *)
Theorem chat_history_all_newest_first
    (Request : Type) (authenticateJWT : Request → option nat)
    (req : Request) (srv : Server) :
  (authenticateJWT req = None →
   ∃ docs,
     get_chat Request authenticateJWT req true srv = Some (json docs) ∧
     docs ≡ₚ messages srv ∧
     length docs = length (messages srv) ∧
     StronglySorted newest_first docs) ∧
  (∀ code find_ok, authenticateJWT req = Some code →
     get_chat Request authenticateJWT req find_ok srv = Some (status code)).
Proof.
  split.
  - intros Hauth. unfold get_chat, read. rewrite Hauth, find_all.
    exists (Query.sort (-1) (messages srv)).
    split; [reflexivity|]. split; [apply sort_permutation|]. split.
    + apply Permutation_length, sort_permutation.
    + apply sort_descending.
  - intros code find_ok Hauth. unfold get_chat. rewrite Hauth. reflexivity.
Qed.

Lemma chat_history_all_newest_first_witness :
  let authenticateJWT (token : option string) : option nat :=
    match token with Some "secret" => None | _ => Some 401%nat end in
  let srv := run initial (connection "s1" :: chatter "s1" 3) in
  (∃ docs,
     get_chat (option string) authenticateJWT (Some "secret") true srv = Some (json docs) ∧
     docs ≡ₚ messages srv ∧
     length docs = length (messages srv) ∧
     StronglySorted newest_first docs) ∧
  get_chat (option string) authenticateJWT None true srv = Some (status 401%nat).
Proof.
  intros authenticateJWT srv.
  split.
  - apply (proj1 (chat_history_all_newest_first (option string) authenticateJWT
                    (Some "secret") srv)). reflexivity.
  - apply (proj2 (chat_history_all_newest_first (option string) authenticateJWT
                    None srv) 401%nat true). reflexivity.
Defined.

Example chat_history_three :
  let srv := run initial (connection "s1" :: chatter "s1" 3) in
  option_map (λ r, match r with
                   | json docs => map msg_timestamp docs
                   | status _ => []
                   end)
    (get_chat unit (λ _, None) tt true srv) = Some [3; 2; 1].
Proof. vm_compute. reflexivity. Qed.

(** C2, as the code has it. [fetchMessages] answers the requesting socket
    with at most 50 messages of the conversation, oldest first, and they are
    the OLDEST ones: every message of the conversation left out is at least
    as recent as every message returned. All of them are returned while the
    conversation has at most 50. The limit is fixed at 50. *)
Theorem fetchMessages_oldest_fifty (srv : Server) (c : string) :
  let found := fetch_query c (messages srv) in
  let conv := Query.find (Query.by_conversationId c) (messages srv) in
  (∀ s sock, sockets srv !! s = Some sock → Js.truthy_string c →
     step srv (fetchMessages s (Some c) true) =
       (srv, [socket_emit s (EvPreviousMessages c found)])) ∧
  length found = Nat.min 50 (length conv) ∧
  (∀ m, m ∈ found → m ∈ messages srv ∧ msg_conversationId m = Some c) ∧
  StronglySorted oldest_first found ∧
  ∃ rest, found ++ rest ≡ₚ conv ∧
          ∀ m m', m ∈ found → m' ∈ rest → oldest_first m m'.
Proof.
  intros found conv.
  set (sorted := Query.sort 1 conv).
  assert (found = take 50 sorted) as Hfound by reflexivity.
  assert (sorted ≡ₚ conv) as Hperm by apply sort_permutation.
  assert (StronglySorted oldest_first (take 50 sorted ++ drop 50 sorted)) as Hsorted.
  { rewrite take_drop. apply sort_ascending. }
  split; [|split; [|split; [|split]]].
  - intros s sock Hs Hc. unfold step. cbn [event_socket]. rewrite Hs.
    unfold on_fetchMessages, fetchMessages_body, read.
    rewrite (required_Some c Hc). reflexivity.
  - rewrite Hfound, length_take, <- (Permutation_length Hperm). reflexivity.
  - intros m Hm. apply (find_by_conversationId c).
    fold conv. rewrite <- Hperm. rewrite Hfound in Hm.
    eapply subseteq_take, Hm.
  - rewrite Hfound. eapply StronglySorted_app_1_l, Hsorted.
  - exists (drop 50 sorted). rewrite Hfound. split.
    + rewrite take_drop. exact Hperm.
    + intros m m'. apply StronglySorted_app_1_elem_of, Hsorted.
Qed.

Lemma fetchMessages_oldest_fifty_witness :
  let srv := run initial (connection "s1" :: chatter "s1" 3) in
  step srv (fetchMessages "s1" (Some "alice-bob") true) =
    (srv, [socket_emit "s1"
             (EvPreviousMessages "alice-bob" (fetch_query "alice-bob" (messages srv)))]) ∧
  map msg_timestamp (fetch_query "alice-bob" (messages srv)) = [1; 2; 3].
Proof.
  intros srv. split.
  - apply (proj1 (fetchMessages_oldest_fifty srv "alice-bob") "s1"
             {| userId := None; rooms := {["s1"]} |}).
    + vm_compute. reflexivity.
    + exact I.
  - vm_compute. reflexivity.
Defined.

(** C2 as stated fails: with 51 messages in the conversation the handler
    answers with those sent at times 1 to 50 and leaves out the most recent
    one, where the 50 most recent are those of times 2 to 51. *)
Lemma fetchMessages_drops_newest :
  let srv := run initial (connection "s1" :: chatter "s1" 51) in
  map msg_timestamp (messages srv) = map Z.of_nat (seq 1 51) ∧
  (∃ found,
     snd (step srv (fetchMessages "s1" (Some "alice-bob") true)) =
       [socket_emit "s1" (EvPreviousMessages "alice-bob" found)] ∧
     map msg_timestamp found = map Z.of_nat (seq 1 50) ∧
     found ≠ recent_spec "alice-bob" 50 (messages srv)) ∧
  map msg_timestamp (recent_spec "alice-bob" 50 (messages srv)) =
    map Z.of_nat (seq 2 50).
Proof.
  split; [vm_compute; reflexivity|]. split.
  - eexists. split; [vm_compute; reflexivity|]. split; [vm_compute; reflexivity|].
    intros Heq. apply (f_equal (map msg_timestamp)) in Heq.
    vm_compute in Heq. discriminate Heq.
  - vm_compute. reflexivity.
Qed.

(** The same query with a limit of 2 on messages sent at times 1, 2 and 3
    yields those of times 1 and 2. *)
Example limit_keeps_oldest :
  let srv := run initial (connection "s1" :: chatter "s1" 3) in
  map msg_timestamp
    (Query.limit 2 (Query.sort 1
       (Query.find (Query.by_conversationId "alice-bob") (messages srv)))) = [1; 2] ∧
  map msg_timestamp (recent_spec "alice-bob" 2 (messages srv)) = [2; 3].
Proof. vm_compute. split; reflexivity. Qed.

(** * Further properties of the handlers *)

(** ** Conversation rooms *)

Section Rooms.

Implicit Types (srv : Server) (s c room : string) (sock : Socket).

Lemma step_joinConversation srv s sock c :
  sockets srv !! s = Some sock → Js.truthy_string c →
  step srv (joinConversation s (Some c)) =
    (with_sockets srv (alter (join_room c) s (sockets srv)), []).
Proof.
  intros Hs Hc. unfold step, on_joinConversation. cbn [event_socket].
  rewrite Hs, (required_Some c Hc). reflexivity.
Qed.

Lemma in_room_join_room srv s sock c s' room :
  sockets srv !! s = Some sock →
  in_room (with_sockets srv (alter (join_room c) s (sockets srv))) s' room =
    in_room srv s' room || (bool_decide (s' = s) && bool_decide (room = c)).
Proof.
  intros Hs. unfold in_room. cbn [sockets with_sockets].
  destruct (decide (s' = s)) as [->|Hne].
  - rewrite lookup_alter_eq, Hs. cbn [fmap option_fmap option_map join_room rooms].
    rewrite (bool_decide_eq_true_2 (s = s)) by done. cbn [andb].
    rewrite <- bool_decide_or. apply bool_decide_ext.
    rewrite elem_of_union, elem_of_singleton. tauto.
  - rewrite lookup_alter_ne by done.
    rewrite (bool_decide_eq_false_2 (s' = s)) by done.
    cbn [andb]. rewrite orb_false_r. reflexivity.
Qed.

Lemma join_room_idemp c sock : join_room c (join_room c sock) = join_room c sock.
Proof.
  unfold join_room. cbn [userId rooms]. f_equal.
  apply set_eq. intros x. rewrite !elem_of_union. tauto.
Qed.

Lemma alter_join_room_idemp c s (m : gmap string Socket) :
  alter (join_room c) s (alter (join_room c) s m) = alter (join_room c) s m.
Proof.
  apply map_eq. intros i. destruct (decide (i = s)) as [->|Hne].
  - rewrite !lookup_alter_eq. destruct (m !! s); cbn; [|reflexivity].
    rewrite join_room_idemp. reflexivity.
  - rewrite !lookup_alter_ne by done. reflexivity.
Qed.

End Rooms.

(** X1. [joinConversation] with a non-empty conversation id puts the socket
    in that room and changes nothing else: no emit, registry, store and
    identities as before, every other room membership as before. Joining the
    same room again changes nothing at all. An argument object without a
    conversation id is dropped; the event sent with no argument at all is
    not: binding the parameter throws, and nothing catches it. *)
Theorem joinConversation_subscribes
    (srv : Server) (s c : string) (sock : Socket) :
  sockets srv !! s = Some sock → Js.truthy_string c →
  let r := step srv (joinConversation s (Some c)) in
  snd r = [] ∧
  onlineUsers (fst r) = onlineUsers srv ∧
  messages (fst r) = messages srv ∧
  (∀ s', bound_userId s' (fst r) = bound_userId s' srv) ∧
  (∀ s' room, in_room (fst r) s' room =
              in_room srv s' room || (bool_decide (s' = s) && bool_decide (room = c))) ∧
  step (fst r) (joinConversation s (Some c)) = (fst r, []) ∧
  (∀ cid, Js.truthy cid = false →
          receive srv (packet_joinConversation s (Some cid)) = Ok (srv, [])) ∧
  receive srv (packet_joinConversation s None) = Throw destructure_error.
Proof.
  intros Hs Hc r. subst r. rewrite (step_joinConversation srv s sock c Hs Hc).
  cbn [fst snd]. repeat split.
  - intros s'. unfold bound_userId. cbn [sockets with_sockets].
    destruct (decide (s' = s)) as [->|Hne].
    + rewrite lookup_alter_eq, Hs. reflexivity.
    + rewrite lookup_alter_ne by done. reflexivity.
  - intros s' room. apply (in_room_join_room srv s sock). exact Hs.
  - rewrite (step_joinConversation _ s (join_room c sock) c) by
      (try assumption; cbn [sockets with_sockets]; rewrite lookup_alter_eq, Hs; reflexivity).
    unfold with_sockets. cbn [sockets onlineUsers messages].
    rewrite alter_join_room_idemp. reflexivity.
  - intros cid Hcid. unfold receive. cbn [packet_socket]. rewrite Hs.
    unfold handle_joinConversation, on_joinConversation. cbn [destructure].
    apply required_None in Hcid. rewrite Hcid. reflexivity.
  - unfold receive. cbn [packet_socket]. rewrite Hs. reflexivity.
Qed.

Lemma joinConversation_subscribes_witness :
  let srv := run initial [connection "s1"; join "s1" (Some "alice")] in
  let r := step srv (joinConversation "s1" (Some "alice-bob")) in
  snd r = [] ∧
  in_room (fst r) "s1" "alice-bob" = true ∧
  in_room (fst r) "s1" "s1" = true ∧
  lookup_user "alice" (fst r) = Some "s1" ∧
  step (fst r) (joinConversation "s1" (Some "alice-bob")) = (fst r, []) ∧
  receive srv (packet_joinConversation "s1" (Some (Some ""))) = Ok (srv, []) ∧
  receive srv (packet_joinConversation "s1" (Some None)) = Ok (srv, []) ∧
  receive srv (packet_joinConversation "s1" None) = Throw destructure_error.
Proof.
  intros srv r.
  destruct (joinConversation_subscribes srv "s1" "alice-bob"
              {| userId := Some "alice"; rooms := {["s1"]} |})
    as (Hout & Hreg & _ & _ & Hrooms & Hidem & Hdrop & Hthrow).
  - vm_compute. reflexivity.
  - exact I.
  - split; [exact Hout|]. split; [|split; [|split; [|split; [|split; [|split]]]]].
    + subst r. rewrite Hrooms. vm_compute. reflexivity.
    + subst r. rewrite Hrooms. vm_compute. reflexivity.
    + unfold lookup_user. subst r. rewrite Hreg. vm_compute. reflexivity.
    + exact Hidem.
    + apply Hdrop. reflexivity.
    + apply Hdrop. reflexivity.
    + exact Hthrow.
Defined.

(** ** Who is sent a message *)

Section Recipients.

Implicit Types (srv : Server) (s a b room : string) (d : MessageData).

Lemma delivered_app srv s (es1 es2 : list Emit) :
  delivered srv s (es1 ++ es2) = delivered srv s es1 ++ delivered srv s es2.
Proof. unfold delivered. rewrite List.filter_app, map_app. reflexivity. Qed.

Lemma delivered_io_to srv s room ev :
  delivered srv s [io_to room ev] = if in_room srv s room then [ev] else [].
Proof.
  unfold delivered. cbn [List.filter receives].
  destruct (in_room srv s room); reflexivity.
Qed.

Lemma delivered_io_emit srv s ev :
  delivered srv s [io_emit ev] = if connected srv s then [ev] else [].
Proof.
  unfold delivered. cbn [List.filter receives].
  destruct (connected srv s); reflexivity.
Qed.

(** What each socket is sent of a message that is accepted and stored. *)
Lemma delivered_sendMessage srv s sock d a b now s' :
  sockets srv !! s = Some sock →
  required (senderId d) = Some a → required (receiverId d) = Some b →
  let cid := getConversationId a b in
  let message := new_Message (set_conversationId d cid) now in
  let r := step srv (sendMessage s (Some d) now true) in
  delivered (fst r) s' (snd r) =
    (if in_room srv s' cid then [EvMessage message] else []) ++
    match required (lookup_user b srv) with
    | Some h => if in_room srv s' h then [EvMessage message] else []
    | None => []
    end.
Proof.
  intros Hs Ha Hb cid message r. subst r.
  rewrite (step_sendMessage srv s sock d a b now true Hs Ha Hb).
  cbn [fst snd]. fold cid. fold message.
  change (io_to cid (EvMessage message) :: ?l)
    with ([io_to cid (EvMessage message)] ++ l).
  rewrite (delivered_app _ s' [io_to cid (EvMessage message)]), delivered_io_to.
  change (in_room (with_messages srv (messages srv ++ [message])))
    with (in_room srv).
  f_equal. destruct (required (lookup_user b srv)) as [h|]; [|reflexivity].
  rewrite delivered_io_to. reflexivity.
Qed.

Lemma in_room_bind srv s u s' room :
  in_room (with_sockets srv (alter (bind_userId u) s (sockets srv))) s' room =
    in_room srv s' room.
Proof.
  unfold in_room. cbn [sockets with_sockets].
  destruct (decide (s' = s)) as [->|Hne].
  - rewrite lookup_alter_eq. destruct (sockets srv !! s); reflexivity.
  - rewrite lookup_alter_ne by done. reflexivity.
Qed.

End Recipients.

(** X2. An accepted and stored message is sent to a socket once if the
    socket is in the conversation's room, and once more if the receiver has a
    registered handle and the socket is in the room of that handle; to no
    socket otherwise. *)
Theorem message_recipients
    (srv : Server) (s : string) (sock : Socket) (d : MessageData)
    (a b : string) (now : Z) (s' : string) :
  sockets srv !! s = Some sock →
  senderId d = Some a → Js.truthy_string a →
  receiverId d = Some b → Js.truthy_string b →
  let cid := getConversationId a b in
  let message := new_Message (set_conversationId d cid) now in
  let r := step srv (sendMessage s (Some d) now true) in
  delivered (fst r) s' (snd r) =
    (if in_room srv s' cid then [EvMessage message] else []) ++
    match required (lookup_user b srv) with
    | Some h => if in_room srv s' h then [EvMessage message] else []
    | None => []
    end.
Proof.
  intros Hs Ha Hta Hb Htb.
  apply (delivered_sendMessage srv s sock d a b now s' Hs);
    rewrite ?Ha, ?Hb; apply required_Some; assumption.
Qed.

Lemma message_recipients_witness :
  let srv := run initial [connection "sa"; connection "sb"; connection "sc";
                          join "sb" (Some "bob");
                          joinConversation "sc" (Some "alice-bob")] in
  let d := {| senderId := Some "alice"; receiverId := Some "bob";
              conversationId := None; body := "hi"; timestamp := None |} in
  let message := new_Message (set_conversationId d "alice-bob") 7 in
  let r := step srv (sendMessage "sa" (Some d) 7 true) in
  delivered (fst r) "sa" (snd r) = [] ∧
  delivered (fst r) "sb" (snd r) = [EvMessage message] ∧
  delivered (fst r) "sc" (snd r) = [EvMessage message].
Proof.
  intros srv d message r.
  assert (sockets srv !! "sa" = Some {| userId := None; rooms := {["sa"]} |}) as Hs
    by (vm_compute; reflexivity).
  split; [|split].
  - apply (message_recipients srv "sa" _ d "alice" "bob" 7 "sa" Hs eq_refl I eq_refl I).
  - apply (message_recipients srv "sa" _ d "alice" "bob" 7 "sb" Hs eq_refl I eq_refl I).
  - apply (message_recipients srv "sa" _ d "alice" "bob" 7 "sc" Hs eq_refl I eq_refl I).
Defined.

(** X3. The sender's socket is never emitted to for its own sake: a sender
    that is not in the conversation's room, nor in the room of the receiver's
    handle, is sent nothing of the message it had stored, registered or not. *)
Theorem sender_not_echoed
    (srv : Server) (s : string) (sock : Socket) (d : MessageData)
    (a b : string) (now : Z) :
  sockets srv !! s = Some sock →
  senderId d = Some a → Js.truthy_string a →
  receiverId d = Some b → Js.truthy_string b →
  in_room srv s (getConversationId a b) = false →
  (∀ h, lookup_user b srv = Some h → in_room srv s h = false) →
  let r := step srv (sendMessage s (Some d) now true) in
  messages (fst r) =
    messages srv ++ [new_Message (set_conversationId d (getConversationId a b)) now] ∧
  delivered (fst r) s (snd r) = [].
Proof.
  intros Hs Ha Hta Hb Htb Hgroup Hdirect r.
  assert (required (senderId d) = Some a) as Ha'
    by (rewrite Ha; apply required_Some; assumption).
  assert (required (receiverId d) = Some b) as Hb'
    by (rewrite Hb; apply required_Some; assumption).
  split.
  - subst r. rewrite (step_sendMessage srv s sock d a b now true Hs Ha' Hb').
    reflexivity.
  - subst r. rewrite (delivered_sendMessage srv s sock d a b now s Hs Ha' Hb').
    rewrite Hgroup. cbn [app].
    destruct (lookup_user b srv) as [h|] eqn:Hh; cbn [required]; [|reflexivity].
    destruct (Js.truthy_string h); [|reflexivity].
    rewrite (Hdirect h eq_refl). reflexivity.
Qed.

Lemma sender_not_echoed_witness :
  let srv := run initial [connection "sa"; connection "sb";
                          join "sa" (Some "alice"); join "sb" (Some "bob")] in
  let d := {| senderId := Some "alice"; receiverId := Some "bob";
              conversationId := None; body := "hi"; timestamp := None |} in
  let r := step srv (sendMessage "sa" (Some d) 7 true) in
  lookup_user "alice" srv = Some "sa" ∧
  messages (fst r) = [new_Message (set_conversationId d "alice-bob") 7] ∧
  delivered (fst r) "sa" (snd r) = [].
Proof.
  intros srv d r. split; [vm_compute; reflexivity|].
  apply (sender_not_echoed srv "sa" {| userId := Some "alice"; rooms := {["sa"]} |}
           d "alice" "bob" 7).
  - vm_compute. reflexivity.
  - reflexivity.
  - exact I.
  - reflexivity.
  - exact I.
  - vm_compute. reflexivity.
  - intros h Hh. assert (h = "sb") as -> by (vm_compute in Hh; congruence).
    vm_compute. reflexivity.
Defined.

(** X4. The handler never compares the sender named in the payload with the
    socket the payload arrives on: when the write succeeds, the same payload
    has the same effect from any connected socket, and the stored message
    names the payload's sender whatever the socket is bound to. *)
Theorem senderId_not_checked
    (srv : Server) (s1 s2 : string) (sock1 sock2 : Socket)
    (messageData : option MessageData) (now : Z) :
  sockets srv !! s1 = Some sock1 → sockets srv !! s2 = Some sock2 →
  step srv (sendMessage s1 messageData now true) =
    step srv (sendMessage s2 messageData now true) ∧
  (∀ d a b, messageData = Some d →
     senderId d = Some a → Js.truthy_string a →
     receiverId d = Some b → Js.truthy_string b →
     ∃ message,
       messages (fst (step srv (sendMessage s1 messageData now true))) =
         messages srv ++ [message] ∧
       msg_senderId message = Some a).
Proof.
  intros H1 H2. split.
  - unfold step. cbn [event_socket]. rewrite H1, H2.
    unfold on_sendMessage, sendMessage_body, save.
    destruct messageData as [d|]; [|reflexivity].
    destruct (required (senderId d)); [|reflexivity].
    destruct (required (receiverId d)); reflexivity.
  - intros d a b -> Ha Hta Hb Htb.
    rewrite (step_sendMessage srv s1 sock1 d a b now true H1)
      by (rewrite ?Ha, ?Hb; apply required_Some; assumption).
    cbn [fst]. eexists. split; [reflexivity|]. exact Ha.
Qed.

Lemma senderId_not_checked_witness :
  let srv := run initial [connection "sa"; connection "sm";
                          join "sa" (Some "alice"); join "sm" (Some "mallory")] in
  let d := {| senderId := Some "alice"; receiverId := Some "bob";
              conversationId := None; body := "hi"; timestamp := None |} in
  bound_userId "sm" srv = Some "mallory" ∧
  step srv (sendMessage "sm" (Some d) 7 true) =
    step srv (sendMessage "sa" (Some d) 7 true) ∧
  ∃ message,
    messages (fst (step srv (sendMessage "sm" (Some d) 7 true))) =
      messages srv ++ [message] ∧
    msg_senderId message = Some "alice".
Proof.
  intros srv d. split; [vm_compute; reflexivity|].
  destruct (senderId_not_checked srv "sm" "sa"
              {| userId := Some "mallory"; rooms := {["sm"]} |}
              {| userId := Some "alice"; rooms := {["sa"]} |} (Some d) 7)
    as [Hsame Hstored].
  - vm_compute. reflexivity.
  - vm_compute. reflexivity.
  - split; [exact Hsame|].
    apply (Hstored d "alice" "bob"); solve [reflexivity | exact I].
Defined.

(** ** Reading the history *)

Section History.

Implicit Types (srv : Server) (s a b c : string).

Lemma step_fetchMessages srv s sock c find_ok :
  sockets srv !! s = Some sock → Js.truthy_string c →
  step srv (fetchMessages s (Some c) find_ok) =
    (srv, [socket_emit s
             (if find_ok then EvPreviousMessages c (fetch_query c (messages srv))
              else EvFetchError "Failed to fetch messages")]).
Proof.
  intros Hs Hc. unfold step. cbn [event_socket]. rewrite Hs.
  unfold on_fetchMessages, fetchMessages_body, read.
  rewrite (required_Some c Hc). destruct find_ok; reflexivity.
Qed.

(** A conversation id is never empty. *)
Lemma getConversationId_truthy a b : Js.truthy_string (getConversationId a b).
Proof.
  unfold getConversationId.
  destruct (sort_pair_cases a b) as [-> | ->]; rewrite join_pair.
  - destruct a; exact I.
  - destruct b; exact I.
Qed.

Lemma find_app (f : Message → bool) (l1 l2 : list Message) :
  Query.find f (l1 ++ l2) = Query.find f l1 ++ Query.find f l2.
Proof. apply List.filter_app. Qed.

End History.

(** X5. [fetchMessages] with a conversation id is read-only and answers the
    requesting socket alone: with the messages found when the read succeeds,
    with a [fetchError] when it fails; no other socket is sent anything. *)
Theorem fetchMessages_answers_requester
    (srv : Server) (s c : string) (sock : Socket) (find_ok : bool) :
  sockets srv !! s = Some sock → Js.truthy_string c →
  let r := step srv (fetchMessages s (Some c) find_ok) in
  fst r = srv ∧
  delivered srv s (snd r) =
    [if find_ok then EvPreviousMessages c (fetch_query c (messages srv))
     else EvFetchError "Failed to fetch messages"] ∧
  (∀ s', s' ≠ s → delivered srv s' (snd r) = []).
Proof.
  intros Hs Hc r. subst r. rewrite (step_fetchMessages srv s sock c find_ok Hs Hc).
  cbn [fst snd]. split; [reflexivity|]. split.
  - rewrite (delivered_socket_emit srv s sock) by exact Hs.
    rewrite bool_decide_eq_true_2 by done. reflexivity.
  - intros s' Hne. rewrite (delivered_socket_emit srv s sock) by exact Hs.
    rewrite bool_decide_eq_false_2 by done. reflexivity.
Qed.

Lemma fetchMessages_answers_requester_witness :
  let srv := run initial (connection "s1" :: connection "s2" :: chatter "s1" 2) in
  let r := step srv (fetchMessages "s2" (Some "alice-bob") false) in
  fst r = srv ∧
  delivered srv "s2" (snd r) = [EvFetchError "Failed to fetch messages"] ∧
  delivered srv "s1" (snd r) = [].
Proof.
  intros srv r.
  destruct (fetchMessages_answers_requester srv "s2" "alice-bob"
              {| userId := None; rooms := {["s2"]} |} false)
    as (Hstate & Hme & Hothers).
  - vm_compute. reflexivity.
  - exact I.
  - split; [exact Hstate|]. split; [exact Hme|]. apply Hothers. discriminate.
Defined.

(** X6. Send, then fetch: after a message from [a] to [b] is stored, a fetch
    of the conversation of [b] and [a], from any connected socket, is
    answered with the messages the conversation held before and the new one,
    as long as the conversation held fewer than 50. *)
Theorem send_then_fetch
    (srv : Server) (s s2 : string) (sock sock2 : Socket) (d : MessageData)
    (a b : string) (now : Z) :
  sockets srv !! s = Some sock → sockets srv !! s2 = Some sock2 →
  senderId d = Some a → Js.truthy_string a →
  receiverId d = Some b → Js.truthy_string b →
  let cid := getConversationId a b in
  let message := new_Message (set_conversationId d cid) now in
  let conv := Query.find (Query.by_conversationId cid) (messages srv) in
  (length conv < 50)%nat →
  let srv' := fst (step srv (sendMessage s (Some d) now true)) in
  ∃ found,
    step srv' (fetchMessages s2 (Some (getConversationId b a)) true) =
      (srv', [socket_emit s2 (EvPreviousMessages cid found)]) ∧
    found ≡ₚ conv ++ [message].
Proof.
  intros Hs Hs2 Ha Hta Hb Htb cid message conv Hlen srv'.
  assert (srv' = with_messages srv (messages srv ++ [message])) as Hsrv'.
  { subst srv'. rewrite (step_sendMessage srv s sock d a b now true Hs)
      by (rewrite ?Ha, ?Hb; apply required_Some; assumption). reflexivity. }
  assert (getConversationId b a = cid) as ->.
  { subst cid. unfold getConversationId. rewrite sort_pair_comm. reflexivity. }
  exists (fetch_query cid (messages srv')). split.
  - apply (step_fetchMessages srv' s2 sock2 cid true).
    + rewrite Hsrv'. exact Hs2.
    + apply getConversationId_truthy.
  - rewrite Hsrv'. cbn [messages with_messages]. unfold fetch_query, Query.limit.
    rewrite find_app. fold conv.
    assert (Query.find (Query.by_conversationId cid) [message] = [message]) as ->.
    { unfold Query.find, Query.by_conversationId. cbn [List.filter].
      rewrite bool_decide_eq_true_2 by reflexivity. reflexivity. }
    rewrite take_ge.
    + apply sort_permutation.
    + rewrite (Permutation_length (sort_permutation 1 _)), length_app.
      cbn [length]. lia.
Qed.

Lemma send_then_fetch_witness :
  let srv := run initial (connection "sa" :: connection "sb" :: chatter "sa" 2) in
  let d := {| senderId := Some "bob"; receiverId := Some "alice";
              conversationId := None; body := "hi back"; timestamp := None |} in
  let message := new_Message (set_conversationId d "alice-bob") 9 in
  let srv' := fst (step srv (sendMessage "sb" (Some d) 9 true)) in
  ∃ found,
    step srv' (fetchMessages "sa" (Some "alice-bob") true) =
      (srv', [socket_emit "sa" (EvPreviousMessages "alice-bob" found)]) ∧
    found ≡ₚ messages srv ++ [message].
Proof.
  intros srv d message srv'.
  apply (send_then_fetch srv "sb" "sa"
           {| userId := None; rooms := {["sb"]} |}
           {| userId := None; rooms := {["sa"]} |} d "bob" "alice" 9).
  - vm_compute. reflexivity.
  - vm_compute. reflexivity.
  - reflexivity.
  - exact I.
  - reflexivity.
  - exact I.
  - vm_compute. lia.
Defined.

(** ** What the events leave alone *)

Section Frames.

Implicit Types (srv : Server) (e : ClientEvent).

Lemma disconnect_messages (sock : Socket) srv :
  messages (fst (on_disconnect sock srv)) = messages srv.
Proof. unfold on_disconnect. destruct (required (userId sock)); reflexivity. Qed.

(** One event adds at most one message, at the end, and only a
    [sendMessage] whose write succeeds adds one. *)
Lemma step_messages srv e :
  ∃ new, messages (fst (step srv e)) = messages srv ++ new ∧
         (length new ≤ if saved_send e then 1 else 0)%nat.
Proof.
  assert (∀ srv', messages srv' = messages srv →
            ∃ new, messages srv' = messages srv ++ new ∧ (length new ≤ 0)%nat)
    as Hsame.
  { intros srv' ->. exists []. rewrite app_nil_r. split; [reflexivity|]. cbn. lia. }
  assert (∀ (n : nat) srv', messages srv' = messages srv →
            ∃ new, messages srv' = messages srv ++ new ∧ (length new ≤ n)%nat)
    as Hsame'.
  { intros n srv' H. destruct (Hsame srv' H) as (new & ? & ?).
    exists new. split; [assumption|lia]. }
  unfold step.
  destruct e as [s|s uid|s|s cid|s md now ok|s cid ok]; cbn [event_socket saved_send];
    destruct (sockets srv !! s) as [sock|]; try (apply Hsame; reflexivity).
  - apply Hsame. unfold on_join. destruct (required uid); reflexivity.
  - apply Hsame. rewrite disconnect_messages. reflexivity.
  - apply Hsame. unfold on_joinConversation. destruct (required cid); reflexivity.
  - unfold on_sendMessage, sendMessage_body, save.
    destruct md as [d|]; [|apply Hsame'; reflexivity].
    destruct (required (senderId d)); [|apply Hsame'; reflexivity].
    destruct (required (receiverId d)); [|apply Hsame'; reflexivity].
    destruct ok; [|apply Hsame; reflexivity].
    cbn [try_catch fst messages with_messages]. eexists. split; [reflexivity|].
    cbn. lia.
  - apply Hsame'. reflexivity.
  - apply Hsame. rewrite fetchMessages_state. reflexivity.
Qed.

Lemma step_onlineUsers srv e :
  presence_event e = false → onlineUsers (fst (step srv e)) = onlineUsers srv.
Proof.
  intros He. unfold step.
  destruct e as [s|s uid|s|s cid|s md now ok|s cid ok]; try discriminate;
    cbn [event_socket]; destruct (sockets srv !! s) as [sock|]; try reflexivity.
  - unfold on_joinConversation. destruct (required cid); reflexivity.
  - apply sendMessage_onlineUsers.
  - rewrite fetchMessages_state. reflexivity.
Qed.

End Frames.

(** X7. The store is append-only: whatever events are handled, the messages
    stored before are still there, in the same order and unchanged, at the
    head of the store, and at most one message is added for each
    [sendMessage] whose write succeeds. *)
Theorem store_append_only (srv : Server) (evs : list ClientEvent) :
  ∃ new, messages (run srv evs) = messages srv ++ new ∧
         (length new ≤ length (List.filter saved_send evs))%nat.
Proof.
  revert srv. induction evs as [|e evs IH]; intros srv; cbn [run List.filter].
  - exists []. rewrite app_nil_r. split; [reflexivity|]. cbn. lia.
  - destruct (step_messages srv e) as (new1 & H1 & Hlen1).
    destruct (IH (fst (step srv e))) as (new2 & H2 & Hlen2).
    exists (new1 ++ new2). split.
    + rewrite H2, H1, app_assoc. reflexivity.
    + rewrite length_app. destruct (saved_send e); cbn [length]; lia.
Qed.

(** X8. Only [join] and [disconnect] write the presence registry: a run of
    other events, whatever they are, leaves every entry, and the order of the
    entries, as it was. *)
Theorem presence_written_by_join_and_disconnect
    (srv : Server) (evs : list ClientEvent) :
  Forall (λ e, presence_event e = false) evs →
  onlineUsers (run srv evs) = onlineUsers srv.
Proof.
  intros Hevs. revert srv.
  induction Hevs as [|e evs He _ IH]; intros srv; cbn [run]; [reflexivity|].
  rewrite IH. apply step_onlineUsers, He.
Qed.

Lemma presence_written_by_join_and_disconnect_witness :
  let srv := run initial [connection "sa"; join "sa" (Some "alice")] in
  onlineUsers
    (run srv (connection "sb" :: joinConversation "sb" (Some "alice-bob") ::
              fetchMessages "sb" (Some "alice-bob") true :: chatter "sb" 2))
  = onlineUsers srv.
Proof.
  intros srv.
  apply (presence_written_by_join_and_disconnect srv).
  repeat constructor.
Defined.

(** ** Announcing and withdrawing presence *)

Section Presence.

Implicit Types (srv : Server) (s u k v : string) (m : JsMap.t).

(** A new key goes to the end of the list; a key already there stays where
    it is. *)
Lemma keys_set k v m :
  JsMap.keys (JsMap.set k v m) =
    match JsMap.get k m with
    | Some _ => JsMap.keys m
    | None => JsMap.keys m ++ [k]
    end.
Proof.
  unfold JsMap.keys. induction m as [|[k' v'] m IH]; cbn; [reflexivity|].
  destruct (String.eqb k' k) eqn:E; cbn.
  - apply String.eqb_eq in E. subst k'. reflexivity.
  - rewrite IH. destruct (JsMap.get k m); reflexivity.
Qed.

Lemma keys_delete k m :
  JsMap.keys (JsMap.delete k m) =
    List.filter (λ k', negb (String.eqb k' k)) (JsMap.keys m).
Proof.
  unfold JsMap.keys. induction m as [|[k' v'] m IH]; cbn; [reflexivity|].
  destruct (String.eqb k' k); cbn; rewrite IH; reflexivity.
Qed.

Lemma connected_bind srv s u s' :
  connected (with_sockets srv (alter (bind_userId u) s (sockets srv))) s' =
    connected srv s'.
Proof.
  unfold connected. cbn [sockets with_sockets]. apply bool_decide_ext.
  destruct (decide (s' = s)) as [->|Hne].
  - rewrite lookup_alter_eq. destruct (sockets srv !! s); cbn; split;
      intros [? ?]; solve [eauto | discriminate].
  - rewrite lookup_alter_ne by done. reflexivity.
Qed.

Lemma step_disconnect_unbound srv s (sock : Socket) :
  sockets srv !! s = Some sock → userId sock = None →
  step srv (disconnect s) = (with_sockets srv (delete s (sockets srv)), []).
Proof.
  intros Hs Hu. unfold step, on_disconnect. cbn [event_socket].
  rewrite Hs, Hu. reflexivity.
Qed.

End Presence.

(** X9. An accepted [join] binds the socket to the user, makes the registry
    answer with this socket for the user and leaves every other user's entry
    and the store alone. The list of online users is then sent to every
    connected socket: the list as it was when the user was already listed,
    with the user added at the end otherwise. *)
Theorem join_announces (srv : Server) (s u : string) (sock : Socket) :
  sockets srv !! s = Some sock → Js.truthy_string u →
  let r := step srv (join s (Some u)) in
  let users :=
    match lookup_user u srv with
    | Some _ => JsMap.keys (onlineUsers srv)
    | None => JsMap.keys (onlineUsers srv) ++ [u]
    end in
  lookup_user u (fst r) = Some s ∧
  (∀ u', u' ≠ u → lookup_user u' (fst r) = lookup_user u' srv) ∧
  bound_userId s (fst r) = Some u ∧
  messages (fst r) = messages srv ∧
  snd r = [io_emit (EvOnlineUsers users)] ∧
  (∀ s', delivered (fst r) s' (snd r) =
         if connected srv s' then [EvOnlineUsers users] else []).
Proof.
  intros Hs Hu r users. subst r. rewrite (step_join srv s sock u Hs Hu).
  cbn [fst snd onlineUsers with_onlineUsers with_sockets].
  assert (JsMap.keys (JsMap.set u s (onlineUsers srv)) = users) as Hkeys.
  { subst users. unfold lookup_user. apply keys_set. }
  rewrite Hkeys. unfold lookup_user.
  cbn [onlineUsers with_onlineUsers with_sockets].
  split; [apply get_set_eq|]. split.
  { intros u' Hne. apply get_set_ne. congruence. }
  split.
  { unfold bound_userId. cbn [sockets with_onlineUsers with_sockets].
    rewrite lookup_alter_eq, Hs. reflexivity. }
  split; [reflexivity|]. split; [reflexivity|].
  intros s'. rewrite delivered_io_emit.
  change (connected (with_onlineUsers ?x _)) with (connected x).
  rewrite connected_bind. reflexivity.
Qed.

Lemma join_announces_witness :
  let srv := run initial [connection "sa"; connection "sb"; join "sa" (Some "alice")] in
  let r := step srv (join "sb" (Some "bob")) in
  lookup_user "bob" (fst r) = Some "sb" ∧
  lookup_user "alice" (fst r) = Some "sa" ∧
  snd r = [io_emit (EvOnlineUsers ["alice"; "bob"])] ∧
  delivered (fst r) "sa" (snd r) = [EvOnlineUsers ["alice"; "bob"]] ∧
  delivered (fst r) "sb" (snd r) = [EvOnlineUsers ["alice"; "bob"]].
Proof.
  intros srv r.
  destruct (join_announces srv "sb" "bob" {| userId := None; rooms := {["sb"]} |})
    as (Hme & Hothers & _ & _ & Hout & Hdel).
  - vm_compute. reflexivity.
  - exact I.
  - subst r. split; [exact Hme|]. split; [|split; [exact Hout|split]].
    + rewrite (Hothers "alice") by discriminate. vm_compute. reflexivity.
    + apply (Hdel "sa").
    + apply (Hdel "sb").
Defined.

(** X10. The disconnect of a socket bound to a user removes that user's
    entry, whatever handle it holds, and no other; the remaining users, in
    their order, are sent to every socket still connected, and nothing is
    sent to the socket that left. *)
Theorem disconnect_withdraws (srv : Server) (s u : string) (sock : Socket) :
  sockets srv !! s = Some sock → userId sock = Some u → Js.truthy_string u →
  let r := step srv (disconnect s) in
  let users :=
    List.filter (λ k, negb (String.eqb k u)) (JsMap.keys (onlineUsers srv)) in
  lookup_user u (fst r) = None ∧
  (∀ u', u' ≠ u → lookup_user u' (fst r) = lookup_user u' srv) ∧
  connected (fst r) s = false ∧
  snd r = [io_emit (EvOnlineUsers users)] ∧
  (∀ s', delivered (fst r) s' (snd r) =
         if bool_decide (s' = s) then []
         else if connected srv s' then [EvOnlineUsers users] else []).
Proof.
  intros Hs Hu Ht r users. subst r.
  rewrite (step_disconnect_bound srv s sock u Hs Hu Ht).
  cbn [fst snd onlineUsers with_onlineUsers with_sockets].
  rewrite keys_delete. fold users. unfold lookup_user.
  cbn [onlineUsers with_onlineUsers with_sockets].
  assert (∀ s', connected
                  (with_onlineUsers (with_sockets srv (delete s (sockets srv)))
                     (JsMap.delete u (onlineUsers srv))) s' =
                if bool_decide (s' = s) then false else connected srv s') as Hconn.
  { intros s'. unfold connected. cbn [sockets with_onlineUsers with_sockets].
    destruct (decide (s' = s)) as [->|Hne].
    - rewrite lookup_delete_eq, (bool_decide_eq_true_2 (s = s)) by done.
      apply bool_decide_eq_false_2. intros [? ?]. discriminate.
    - rewrite lookup_delete_ne, (bool_decide_eq_false_2 (s' = s)) by done.
      reflexivity. }
  split; [apply get_delete_eq|]. split.
  { intros u' Hne. apply get_delete_ne. congruence. }
  split.
  { rewrite Hconn, bool_decide_eq_true_2 by done. reflexivity. }
  split; [reflexivity|].
  intros s'. rewrite delivered_io_emit, Hconn.
  destruct (bool_decide (s' = s)); reflexivity.
Qed.

Lemma disconnect_withdraws_witness :
  let srv := run initial [connection "sa"; connection "sb";
                          join "sa" (Some "alice"); join "sb" (Some "bob")] in
  let r := step srv (disconnect "sa") in
  lookup_user "alice" (fst r) = None ∧
  lookup_user "bob" (fst r) = Some "sb" ∧
  snd r = [io_emit (EvOnlineUsers ["bob"])] ∧
  delivered (fst r) "sa" (snd r) = [] ∧
  delivered (fst r) "sb" (snd r) = [EvOnlineUsers ["bob"]].
Proof.
  intros srv r.
  destruct (disconnect_withdraws srv "sa" "alice"
              {| userId := Some "alice"; rooms := {["sa"]} |})
    as (Hme & Hothers & _ & Hout & Hdel).
  - vm_compute. reflexivity.
  - reflexivity.
  - exact I.
  - subst r. split; [exact Hme|]. split; [|split; [exact Hout|split]].
    + rewrite (Hothers "bob") by discriminate. vm_compute. reflexivity.
    + apply (Hdel "sa").
    + apply (Hdel "sb").
Defined.

(** X11. The disconnect of a socket that never announced a user is silent:
    the socket is gone, nothing is emitted, and the registry, the store and
    every other socket are as before. *)
Theorem disconnect_unbound_silent (srv : Server) (s : string) (sock : Socket) :
  sockets srv !! s = Some sock → userId sock = None →
  let r := step srv (disconnect s) in
  snd r = [] ∧
  onlineUsers (fst r) = onlineUsers srv ∧
  messages (fst r) = messages srv ∧
  sockets (fst r) !! s = None ∧
  (∀ s', s' ≠ s → sockets (fst r) !! s' = sockets srv !! s').
Proof.
  intros Hs Hu r. subst r. rewrite (step_disconnect_unbound srv s sock Hs Hu).
  cbn [fst snd onlineUsers messages sockets with_sockets].
  repeat split.
  - apply lookup_delete_eq.
  - intros s' Hne. apply lookup_delete_ne. congruence.
Qed.

Lemma disconnect_unbound_silent_witness :
  let srv := run initial [connection "sa"; connection "sb"; join "sa" (Some "alice")] in
  let r := step srv (disconnect "sb") in
  snd r = [] ∧
  onlineUsers (fst r) = onlineUsers srv ∧
  messages (fst r) = messages srv ∧
  sockets (fst r) !! "sb" = None ∧
  (∀ s', s' ≠ "sb" → sockets (fst r) !! s' = sockets srv !! s').
Proof.
  intros srv.
  apply (disconnect_unbound_silent srv "sb" {| userId := None; rooms := {["sb"]} |}).
  - vm_compute. reflexivity.
  - reflexivity.
Defined.

(** ** Invariants of the server *)

Section Invariants.

Implicit Types (srv : Server) (s u : string) (m : JsMap.t).

Lemma registry_ok_set u s m :
  Js.truthy_string u → registry_ok m → registry_ok (JsMap.set u s m).
Proof.
  intros Hu [Hnd Hall]. unfold registry_ok. rewrite keys_set.
  destruct (JsMap.get u m) eqn:Hget; [split; assumption|]. split.
  - apply NoDup_app. split; [exact Hnd|]. split; [|apply NoDup_singleton].
    intros x Hx Hx'. apply list_elem_of_singleton in Hx'. subst x.
    apply list_elem_of_In, in_keys_get in Hx. rewrite Hget in Hx.
    destruct Hx as [? ?]. discriminate.
  - apply Forall_app. split; [exact Hall|]. constructor; [exact Hu|constructor].
Qed.

Lemma NoDup_list_filter {A} (f : A → bool) (l : list A) :
  NoDup l → NoDup (List.filter f l).
Proof.
  induction 1 as [|x l Hx Hnd IH]; cbn; [constructor|].
  destruct (f x); [|exact IH]. constructor; [|exact IH].
  intros Hin. apply Hx. apply list_elem_of_In in Hin.
  apply filter_In in Hin as [Hin _]. apply list_elem_of_In, Hin.
Qed.

Lemma registry_ok_delete u m : registry_ok m → registry_ok (JsMap.delete u m).
Proof.
  intros [Hnd Hall]. unfold registry_ok. rewrite keys_delete. split.
  - apply NoDup_list_filter, Hnd.
  - rewrite List.Forall_forall in *. intros x [Hx _]%filter_In. apply Hall, Hx.
Qed.

Lemma sockets_ok_bind u s (ss : gmap string Socket) :
  Js.truthy_string u → sockets_ok ss → sockets_ok (alter (bind_userId u) s ss).
Proof.
  intros Hu Hok s' sock'. destruct (decide (s' = s)) as [->|Hne].
  - rewrite lookup_alter_eq. destruct (ss !! s) as [sock|] eqn:Hs; [|discriminate].
    intros [= <-]. cbn [bind_userId userId rooms]. split.
    + intros u' [= <-]. exact Hu.
    + apply (Hok s sock Hs).
  - rewrite lookup_alter_ne by done. apply Hok.
Qed.

Lemma sockets_ok_join_room c s (ss : gmap string Socket) :
  sockets_ok ss → sockets_ok (alter (join_room c) s ss).
Proof.
  intros Hok s' sock'. destruct (decide (s' = s)) as [->|Hne].
  - rewrite lookup_alter_eq. destruct (ss !! s) as [sock|] eqn:Hs; [|discriminate].
    intros [= <-]. cbn [join_room userId rooms].
    destruct (Hok s sock Hs) as [Hb Hr]. split; [exact Hb|].
    apply elem_of_union. right. exact Hr.
  - rewrite lookup_alter_ne by done. apply Hok.
Qed.

Lemma sockets_ok_connection s (ss : gmap string Socket) :
  sockets_ok ss → sockets_ok (<[s := {| userId := None; rooms := {[s]} |}]> ss).
Proof.
  intros Hok s' sock'. destruct (decide (s' = s)) as [->|Hne].
  - rewrite lookup_insert_eq. intros [= <-]. cbn [userId rooms]. split.
    + intros u [=].
    + apply elem_of_singleton. reflexivity.
  - rewrite lookup_insert_ne by done. apply Hok.
Qed.

Lemma sockets_ok_delete s (ss : gmap string Socket) :
  sockets_ok ss → sockets_ok (delete s ss).
Proof.
  intros Hok s' sock' [_ Hs']%lookup_delete_Some. apply (Hok s' sock' Hs').
Qed.

Lemma well_formed_iff srv :
  well_formed srv ↔ registry_ok (onlineUsers srv) ∧ sockets_ok (sockets srv).
Proof.
  split.
  - intros [Hnd Hall Hbound Hroom]. split; [split; assumption|].
    intros s sock Hs. split.
    + intros u Hu. apply (Hbound s u). unfold bound_userId. rewrite Hs. exact Hu.
    + assert (connected srv s = true) as Hc.
      { unfold connected. apply bool_decide_eq_true_2. rewrite Hs. eauto. }
      apply Hroom in Hc. unfold in_room in Hc. rewrite Hs in Hc.
      apply bool_decide_eq_true_1 in Hc. exact Hc.
  - intros [[Hnd Hall] Hok]. split; [exact Hnd|exact Hall| |].
    + intros s u. unfold bound_userId.
      destruct (sockets srv !! s) as [sock|] eqn:Hs; [|discriminate].
      cbn. intros Hu. apply (Hok s sock Hs), Hu.
    + intros s. unfold connected, in_room.
      destruct (sockets srv !! s) as [sock|] eqn:Hs.
      * intros _. apply bool_decide_eq_true_2, (Hok s sock Hs).
      * intros [? [=]]%bool_decide_eq_true_1.
Qed.

Lemma step_well_formed srv (e : ClientEvent) :
  well_formed srv → well_formed (fst (step srv e)).
Proof.
  rewrite !well_formed_iff. intros [Hreg Hsock]. unfold step.
  destruct e as [s|s uid|s|s cid|s md now ok|s cid ok]; cbn [event_socket];
    destruct (sockets srv !! s) as [sock|] eqn:Hs; cbn [fst];
    try (split; assumption).
  - split; [exact Hreg|]. apply sockets_ok_connection, Hsock.
  - unfold on_join. destruct (required uid) as [u|] eqn:Hu; [|split; assumption].
    apply required_truthy in Hu as [_ Hu].
    cbn [fst onlineUsers sockets with_onlineUsers with_sockets]. split.
    + apply registry_ok_set; assumption.
    + apply sockets_ok_bind; assumption.
  - unfold on_disconnect. destruct (required (userId sock)) as [u|];
      cbn [fst onlineUsers sockets with_onlineUsers with_sockets]; split;
      auto using registry_ok_delete, sockets_ok_delete.
  - unfold on_joinConversation. destruct (required cid) as [c|]; [|split; assumption].
    cbn [fst onlineUsers sockets with_sockets]. split; [exact Hreg|].
    apply sockets_ok_join_room, Hsock.
  - rewrite sendMessage_onlineUsers, sendMessage_sockets. split; assumption.
  - rewrite fetchMessages_state. split; assumption.
Qed.

Lemma initial_well_formed : well_formed initial.
Proof.
  apply well_formed_iff. split.
  - split; constructor.
  - intros s sock. cbn [sockets initial]. rewrite lookup_empty. discriminate.
Qed.

End Invariants.

(** X12. In every state the server reaches from its start, whatever the
    events were, the registry lists no user twice and no empty user id (so
    neither does any list of online users sent out), a socket that is bound
    is bound to a non-empty user id, and every connected socket is in the
    room of its own id. *)
Theorem reachable_well_formed (evs : list ClientEvent) :
  well_formed (run initial evs).
Proof.
  assert (∀ srv, well_formed srv → well_formed (run srv evs)) as Hrun.
  { induction evs as [|e evs IH]; intros srv Hwf; cbn [run].
    - exact Hwf.
    - apply IH, step_well_formed, Hwf. }
  apply Hrun, initial_well_formed.
Qed.

(** ** Collisions of conversation ids *)

Section Collisions.

Implicit Types (x y z a c : string).

Lemma append_assoc x y z : ((x ++ y) ++ z)%string = (x ++ (y ++ z))%string.
Proof.
  induction x as [|ch x IH]; [reflexivity|].
  change (String ch ((x ++ y) ++ z)%string = String ch (x ++ (y ++ z))%string).
  rewrite IH. reflexivity.
Qed.

Lemma length_append x y :
  String.length (x ++ y)%string = (String.length x + String.length y)%nat.
Proof.
  induction x as [|ch x IH]; [reflexivity|].
  change (S (String.length (x ++ y)%string) = S (String.length x + String.length y)).
  rewrite IH. reflexivity.
Qed.

Lemma ascii_compare_refl (ch : ascii) : Ascii.compare ch ch = Eq.
Proof.
  pose proof (Ascii.compare_antisym ch ch) as H.
  destruct (Ascii.compare ch ch); cbn in H; congruence.
Qed.

(** A string is not above its extensions. *)
Lemma compare_prefix x y : String.compare x (x ++ y)%string ≠ Gt.
Proof.
  induction x as [|ch x IH].
  - destruct y; discriminate.
  - change (match Ascii.compare ch ch with
            | Eq => String.compare x (x ++ y)%string
            | ne => ne
            end ≠ Gt).
    rewrite ascii_compare_refl. exact IH.
Qed.

Lemma sort_prefix x y : Js.sort [x; (x ++ y)%string] = [x; (x ++ y)%string].
Proof.
  rewrite sort_pair. pose proof (compare_prefix x y) as Hgt.
  destruct (String.compare x (x ++ y)%string) eqn:Hc; try congruence.
  apply String.compare_eq_iff in Hc. rewrite <- Hc. reflexivity.
Qed.

Lemma neq_longer x y : (0 < String.length y)%nat → x ≠ (x ++ y)%string.
Proof.
  intros Hlen Heq. apply (f_equal String.length) in Heq.
  rewrite length_append in Heq. lia.
Qed.

End Collisions.

(** X13. Identities that contain the separator do collide, whatever the
    strings: for all [a] and [c], the pair of [a] and [a-a-ac] and the pair of
    [a-a] and [a-ac] are different pairs with the same conversation id. *)
Theorem separator_collides (a c : string) :
  let p := dashed a a in
  let q := (dashed a a ++ c)%string in
  getConversationId a (dashed a q) = getConversationId p q ∧
  a ≠ p ∧ a ≠ q.
Proof.
  intros p q. split; [|split].
  - unfold getConversationId.
    change (dashed a q) with (a ++ ("-" ++ q))%string.
    subst q. rewrite !sort_prefix, !join_pair.
    subst p. unfold dashed. rewrite !append_assoc. reflexivity.
  - subst p. unfold dashed. apply neq_longer.
    rewrite length_append. cbn [String.length]. lia.
  - subst q. unfold dashed. rewrite append_assoc. apply neq_longer.
    rewrite !length_append. cbn [String.length]. lia.
Qed.

(** ** Announcing another socket's user *)

(** X14. An announce is taken at its word: when a second socket announces a
    user that a first socket holds, a message to that user is emitted to the
    conversation's room and to the second socket's room; the first socket is
    sent it no more, unless it is in one of these rooms. *)
Theorem last_announce_takes_delivery
    (srv : Server) (s1 s2 s u a : string) (sock1 sock2 sock : Socket)
    (d : MessageData) (now : Z) :
  sockets srv !! s1 = Some sock1 → sockets srv !! s2 = Some sock2 →
  sockets srv !! s = Some sock →
  Js.truthy_string u → Js.truthy_string s2 →
  senderId d = Some a → Js.truthy_string a → receiverId d = Some u →
  let srv2 := run srv [join s1 (Some u); join s2 (Some u)] in
  let cid := getConversationId a u in
  let message := new_Message (set_conversationId d cid) now in
  let r := step srv2 (sendMessage s (Some d) now true) in
  snd r = [io_to cid (EvMessage message); io_to s2 (EvMessage message)] ∧
  (in_room srv s1 cid = false → in_room srv s1 s2 = false →
   delivered (fst r) s1 (snd r) = []) ∧
  (in_room srv s2 cid = false → in_room srv s2 s2 = true →
   delivered (fst r) s2 (snd r) = [EvMessage message]).
Proof.
  intros H1 H2 Hs Hu Hs2 Ha Hta Hb srv2 cid message r.
  assert (required (senderId d) = Some a) as Ha'
    by (rewrite Ha; apply required_Some; assumption).
  assert (required (receiverId d) = Some u) as Hb'
    by (rewrite Hb; apply required_Some; assumption).
  assert (srv2 =
          with_onlineUsers
            (with_sockets srv
               (alter (bind_userId u) s2 (alter (bind_userId u) s1 (sockets srv))))
            (JsMap.set u s2 (JsMap.set u s1 (onlineUsers srv)))) as Hsrv2.
  { subst srv2. cbn [run].
    rewrite (step_join srv s1 sock1 u H1 Hu). cbn [fst].
    set (srv1 := with_onlineUsers _ _).
    assert (is_Some (sockets srv1 !! s2)) as [sock2' H2'].
    { subst srv1. cbn [sockets with_onlineUsers with_sockets].
      apply lookup_alter_is_Some. eauto. }
    rewrite (step_join srv1 s2 sock2' u H2' Hu). reflexivity. }
  assert (is_Some (sockets srv2 !! s)) as [sock' Hs'].
  { rewrite Hsrv2. cbn [sockets with_onlineUsers with_sockets].
    rewrite !lookup_alter_is_Some. eauto. }
  assert (lookup_user u srv2 = Some s2) as Hlook.
  { rewrite Hsrv2. unfold lookup_user. cbn [onlineUsers with_onlineUsers].
    apply get_set_eq. }
  assert (∀ s' room, in_room srv2 s' room = in_room srv s' room) as Hrooms.
  { intros s' room. rewrite Hsrv2.
    pose (srv1 := with_sockets srv (alter (bind_userId u) s1 (sockets srv))).
    transitivity
      (in_room (with_sockets srv1 (alter (bind_userId u) s2 (sockets srv1))) s' room);
      [reflexivity|].
    rewrite in_room_bind. apply in_room_bind. }
  split; [|split].
  - subst r. rewrite (step_sendMessage srv2 s sock' d a u now true Hs' Ha' Hb').
    cbn [snd]. rewrite Hlook, (required_Some s2 Hs2). reflexivity.
  - intros Hg Hd. subst r.
    rewrite (delivered_sendMessage srv2 s sock' d a u now s1 Hs' Ha' Hb').
    rewrite Hlook, (required_Some s2 Hs2), !Hrooms. fold cid.
    rewrite Hg, Hd. reflexivity.
  - intros Hg Hd. subst r.
    rewrite (delivered_sendMessage srv2 s sock' d a u now s2 Hs' Ha' Hb').
    rewrite Hlook, (required_Some s2 Hs2), !Hrooms. fold cid.
    rewrite Hg, Hd. reflexivity.
Qed.

Lemma last_announce_takes_delivery_witness :
  let srv := run initial [connection "sa"; connection "sb"; connection "sm"] in
  let srv2 := run srv [join "sb" (Some "bob"); join "sm" (Some "bob")] in
  let d := {| senderId := Some "alice"; receiverId := Some "bob";
              conversationId := None; body := "hi"; timestamp := None |} in
  let message := new_Message (set_conversationId d "alice-bob") 7 in
  let r := step srv2 (sendMessage "sa" (Some d) 7 true) in
  snd r = [io_to "alice-bob" (EvMessage message); io_to "sm" (EvMessage message)] ∧
  delivered (fst r) "sb" (snd r) = [] ∧
  delivered (fst r) "sm" (snd r) = [EvMessage message].
Proof.
  intros srv srv2 d message r.
  destruct (last_announce_takes_delivery srv "sb" "sm" "sa" "bob" "alice"
              {| userId := None; rooms := {["sb"]} |}
              {| userId := None; rooms := {["sm"]} |}
              {| userId := None; rooms := {["sa"]} |} d 7)
    as (Hout & Hfirst & Hsecond).
  - vm_compute. reflexivity.
  - vm_compute. reflexivity.
  - vm_compute. reflexivity.
  - exact I.
  - exact I.
  - reflexivity.
  - exact I.
  - reflexivity.
  - split; [exact Hout|]. split.
    + apply Hfirst; vm_compute; reflexivity.
    + apply Hsecond; vm_compute; reflexivity.
Defined.

(** ** Subscribing to a conversation, and the history route *)

Section Subscription.

Implicit Types (srv : Server) (s room : string).

(** A socket stays in the rooms it is in for as long as it is connected. *)
Lemma step_in_room srv s room (e : ClientEvent) :
  in_room srv s room = true → terminates s e = false →
  in_room (fst (step srv e)) s room = true.
Proof.
  intros Hin Ht.
  assert (is_Some (sockets srv !! s)) as Hconn.
  { unfold in_room in Hin. destruct (sockets srv !! s); [eauto|discriminate]. }
  unfold step.
  destruct e as [s'|s' uid|s'|s' cid|s' md now ok|s' cid ok]; cbn [event_socket];
    destruct (sockets srv !! s') as [sock'|] eqn:Hs'; cbn [fst]; try exact Hin.
  - (* connection *)
    unfold on_connection, in_room. cbn [fst sockets with_sockets].
    rewrite lookup_insert_ne.
    + exact Hin.
    + intros ->. rewrite Hs' in Hconn. destruct Hconn as [? [=]].
  - (* join *)
    unfold on_join. destruct (required uid) as [u|]; cbn [fst]; [|exact Hin].
    change (in_room (with_onlineUsers ?x _)) with (in_room x).
    rewrite in_room_bind. exact Hin.
  - (* disconnect *)
    cbn [terminates] in Ht. apply bool_decide_eq_false in Ht.
    assert (in_room (with_sockets srv (delete s' (sockets srv))) s room = true) as Hin'.
    { unfold in_room. cbn [sockets with_sockets].
      rewrite lookup_delete_ne by done. exact Hin. }
    unfold on_disconnect. destruct (required (userId sock')); exact Hin'.
  - (* joinConversation *)
    unfold on_joinConversation.
    destruct (required cid) as [c|]; cbn [fst]; [|exact Hin].
    rewrite (in_room_join_room srv s' sock' c s room Hs'), Hin. reflexivity.
  - (* sendMessage *)
    unfold in_room. rewrite sendMessage_sockets. exact Hin.
  - (* fetchMessages *)
    rewrite fetchMessages_state. exact Hin.
Qed.

Lemma run_in_room srv s room (evs : list ClientEvent) :
  in_room srv s room = true →
  Forall (λ e, terminates s e = false) evs →
  in_room (run srv evs) s room = true.
Proof.
  intros Hin Hevs. revert srv Hin.
  induction Hevs as [|e evs He _ IH]; intros srv Hin; cbn [run].
  - exact Hin.
  - apply IH, step_in_room; assumption.
Qed.

End Subscription.

(** X15. Any connected socket may join any conversation's room, whoever it
    is bound to, then or later: once it has, and for as long as it stays
    connected, whatever else happens in between (its own announces
    included), it is sent every message stored in that conversation, in
    either direction and from any socket. *)
Theorem subscriber_receives
    (srv : Server) (s s3 c : string) (sock sock3 : Socket) (d : MessageData)
    (a b : string) (now : Z) (evs : list ClientEvent) :
  sockets srv !! s3 = Some sock3 → Js.truthy_string c →
  Forall (λ e, terminates s3 e = false) evs →
  senderId d = Some a → Js.truthy_string a →
  receiverId d = Some b → Js.truthy_string b →
  getConversationId a b = c →
  let message := new_Message (set_conversationId d c) now in
  let srv' := run (fst (step srv (joinConversation s3 (Some c)))) evs in
  sockets srv' !! s = Some sock →
  let r := step srv' (sendMessage s (Some d) now true) in
  In (EvMessage message) (delivered (fst r) s3 (snd r)).
Proof.
  intros Hs3 Hc Hevs Ha Hta Hb Htb Hcid message srv' Hs r.
  assert (in_room srv' s3 c = true) as Hin.
  { subst srv'. apply run_in_room; [|exact Hevs].
    rewrite (step_joinConversation srv s3 sock3 c Hs3 Hc). cbn [fst].
    rewrite (in_room_join_room srv s3 sock3 c s3 c Hs3).
    rewrite !bool_decide_eq_true_2 by done. apply orb_true_r. }
  subst r.
  rewrite (delivered_sendMessage srv' s sock d a b now s3 Hs)
    by (rewrite ?Ha, ?Hb; apply required_Some; assumption).
  rewrite Hcid. fold message. rewrite Hin. left. reflexivity.
Qed.

Lemma subscriber_receives_witness :
  let srv := run initial [connection "sa"; connection "sb"; connection "se"] in
  let d := {| senderId := Some "bob"; receiverId := Some "alice";
              conversationId := None; body := "hi"; timestamp := None |} in
  let message := new_Message (set_conversationId d "alice-bob") 7 in
  let srv' := run (fst (step srv (joinConversation "se" (Some "alice-bob"))))
                [join "se" (Some "eve"); join "sa" (Some "alice");
                 sendMessage "sa" (Some hello) 5 true; disconnect "sa"] in
  let r := step srv' (sendMessage "sb" (Some d) 7 true) in
  In (EvMessage message) (delivered (fst r) "se" (snd r)).
Proof.
  intros srv d message srv' r.
  apply (subscriber_receives srv "sb" "se" "alice-bob"
           {| userId := None; rooms := {["sb"]} |}
           {| userId := None; rooms := {["se"]} |} d "bob" "alice" 7
           [join "se" (Some "eve"); join "sa" (Some "alice");
            sendMessage "sa" (Some hello) 5 true; disconnect "sa"]).
  - vm_compute. reflexivity.
  - exact I.
  - repeat constructor.
  - reflexivity.
  - exact I.
  - reflexivity.
  - exact I.
  - reflexivity.
  - vm_compute. reflexivity.
Defined.

(** X16. Send, then read the history over HTTP: after a message is stored,
    the history route answers a request the middleware lets through with the
    messages stored before and the new one. *)
Theorem send_then_history
    (Request : Type) (authenticateJWT : Request → option nat) (req : Request)
    (srv : Server) (s : string) (sock : Socket) (d : MessageData)
    (a b : string) (now : Z) :
  authenticateJWT req = None →
  sockets srv !! s = Some sock →
  senderId d = Some a → Js.truthy_string a →
  receiverId d = Some b → Js.truthy_string b →
  let message := new_Message (set_conversationId d (getConversationId a b)) now in
  let srv' := fst (step srv (sendMessage s (Some d) now true)) in
  ∃ docs,
    get_chat Request authenticateJWT req true srv' = Some (json docs) ∧
    docs ≡ₚ messages srv ++ [message] ∧
    message ∈ docs.
Proof.
  intros Hauth Hs Ha Hta Hb Htb message srv'.
  assert (messages srv' = messages srv ++ [message]) as Hmsgs.
  { subst srv'. rewrite (step_sendMessage srv s sock d a b now true Hs)
      by (rewrite ?Ha, ?Hb; apply required_Some; assumption). reflexivity. }
  exists (Query.sort (-1) (messages srv')).
  assert (Query.sort (-1) (messages srv') ≡ₚ messages srv ++ [message]) as Hperm.
  { rewrite <- Hmsgs. apply sort_permutation. }
  split; [|split].
  - unfold get_chat, read. rewrite Hauth, find_all. reflexivity.
  - exact Hperm.
  - rewrite Hperm. apply elem_of_app. right. apply list_elem_of_singleton. reflexivity.
Qed.

Lemma send_then_history_witness :
  let authenticateJWT (token : option string) : option nat :=
    match token with Some "secret" => None | _ => Some 401%nat end in
  let srv := run initial (connection "sa" :: chatter "sa" 2) in
  let d := {| senderId := Some "bob"; receiverId := Some "carol";
              conversationId := None; body := "hi"; timestamp := None |} in
  let message := new_Message (set_conversationId d "bob-carol") 9 in
  let srv' := fst (step srv (sendMessage "sa" (Some d) 9 true)) in
  ∃ docs,
    get_chat (option string) authenticateJWT (Some "secret") true srv' =
      Some (json docs) ∧
    docs ≡ₚ messages srv ++ [message] ∧
    message ∈ docs.
Proof.
  intros authenticateJWT srv d message srv'.
  apply (send_then_history (option string) authenticateJWT (Some "secret")
           srv "sa" {| userId := None; rooms := {["sa"]} |} d "bob" "carol" 9).
  - reflexivity.
  - vm_compute. reflexivity.
  - reflexivity.
  - exact I.
  - reflexivity.
  - exact I.
Defined.

(** ** Events sent with no argument *)

Section Packets.

Implicit Types (srv : Server) (s : string).

(** On an event that carries its argument, receiving the packet is the step. *)
Lemma receive_packet_of srv (e : ClientEvent) :
  receive srv (packet_of e) = Ok (step srv e).
Proof.
  unfold receive, step.
  destruct e as [s|s uid|s|s cid|s md now ok|s cid ok];
    cbn [packet_of packet_socket event_socket];
    destruct (sockets srv !! s); reflexivity.
Qed.

End Packets.

(** C8. An event whose argument lacks the required field is dropped, the
    server left as it was and nothing emitted; so is a [sendMessage] sent
    with no argument, which its guard tests. But a [join] or a
    [fetchMessages] sent with no argument is not dropped: binding the
    parameter throws before the guard is reached, outside any [try], and no
    later event is handled. *)
Theorem bare_join_and_fetch_throw (srv : Server) (s : string) (sock : Socket) :
  sockets srv !! s = Some sock →
  receive srv (packet_join s None) = Throw destructure_error ∧
  (∀ find_ok, receive srv (packet_fetchMessages s None find_ok) =
              Throw destructure_error) ∧
  (∀ ps, receive_all srv (packet_join s None :: ps) = Throw destructure_error) ∧
  (∀ ps find_ok, receive_all srv (packet_fetchMessages s None find_ok :: ps) =
                 Throw destructure_error) ∧
  (∀ now save_ok, receive srv (packet_sendMessage s None now save_ok) = Ok (srv, [])) ∧
  (∀ e, lacks_field e → receive srv (packet_of e) = Ok (srv, [])).
Proof.
  intros Hs.
  assert (receive srv (packet_join s None) = Throw destructure_error) as Hjoin.
  { unfold receive. cbn [packet_socket]. rewrite Hs. reflexivity. }
  assert (∀ find_ok, receive srv (packet_fetchMessages s None find_ok) =
                     Throw destructure_error) as Hfetch.
  { intros find_ok. unfold receive. cbn [packet_socket]. rewrite Hs. reflexivity. }
  split; [exact Hjoin|]. split; [exact Hfetch|]. split; [|split; [|split]].
  - intros ps. cbn [receive_all]. rewrite Hjoin. reflexivity.
  - intros ps find_ok. cbn [receive_all]. rewrite Hfetch. reflexivity.
  - intros now save_ok. unfold receive. cbn [packet_socket]. rewrite Hs.
    reflexivity.
  - intros e He. rewrite receive_packet_of.
    destruct (missing_field_dropped srv e He) as [-> _]. reflexivity.
Qed.

Lemma bare_join_and_fetch_throw_witness :
  let srv := run initial [connection "s1"; connection "s2"; join "s2" (Some "bob")] in
  receive srv (packet_join "s1" None) = Throw destructure_error ∧
  receive srv (packet_fetchMessages "s1" None true) = Throw destructure_error ∧
  receive_all srv [packet_join "s1" None; packet_join "s1" (Some (Some "alice"))] =
    Throw destructure_error ∧
  receive srv (packet_sendMessage "s1" None 7 true) = Ok (srv, []) ∧
  receive srv (packet_join "s1" (Some None)) = Ok (srv, []).
Proof.
  intros srv.
  destruct (bare_join_and_fetch_throw srv "s1" {| userId := None; rooms := {["s1"]} |})
    as (Hjoin & Hfetch & Hrun & _ & Hsend & Hdrop).
  - vm_compute. reflexivity.
  - split; [exact Hjoin|]. split; [apply Hfetch|]. split; [apply Hrun|].
    split; [apply Hsend|]. apply (Hdrop (join "s1" None)). reflexivity.
Defined.

